(** * Procur: a shallow embedding of the React/TypeScript client

    The development follows the layout of [procur-frontend/src]:
    - [JS]              the fragment of JavaScript values the client relies on
                        (UTF-16 strings, [trim], truthiness, plain objects);
    - [Types]           [types/index.ts];
    - [Api]             [services/api.ts] (the two axios interceptors and the
                        invitation endpoints);
    - [AuthContext]     [contexts/AuthContext.tsx] (the reducer);
    - [CreateGroupPage] the group-creation page (tags, validation, submit);
    - [GroupAggregate]  the server-side group roster, which the client only
                        talks to over HTTP. *)

From stdpp Require Import gmap strings list.

(* ===================================================================== *)
(** ** JavaScript values                                                  *)
(* ===================================================================== *)

Module JS.

(** A JavaScript string is a sequence of UTF-16 code units; [length]
    counts code units. *)
Definition code_unit := N.
Abbreviation jsstring := (list code_unit).

(** ECMAScript [WhiteSpace] and [LineTerminator] code points, all of which
    sit in the basic plane: TAB, LF, VT, FF, CR, SP, NBSP, U+1680,
    U+2000..U+200A, U+2028, U+2029, U+202F, U+205F, U+3000, U+FEFF. *)
Definition white_space : list code_unit :=
  [9; 10; 11; 12; 13; 32; 160; 5760;
   8192; 8193; 8194; 8195; 8196; 8197; 8198; 8199; 8200; 8201; 8202;
   8232; 8233; 8239; 8287; 12288; 65279]%N.

Definition is_white_space (c : code_unit) : bool :=
  bool_decide (c ∈ white_space).

Fixpoint trimStart (s : jsstring) : jsstring :=
  match s with
  | [] => []
  | c :: s' => if is_white_space c then trimStart s' else s
  end.

Definition trimEnd (s : jsstring) : jsstring :=
  reverse (trimStart (reverse s)).

(** [String.prototype.trim] *)
Definition trim (s : jsstring) : jsstring := trimEnd (trimStart s).

(** ToBoolean on a string: only the empty string is falsy. *)
Definition truthy (s : jsstring) : bool :=
  match s with [] => false | _ :: _ => true end.

(** [Array.prototype.includes] on an array of strings. *)
Definition includes (l : list jsstring) (x : jsstring) : bool :=
  bool_decide (x ∈ l).

(** ToBoolean on a Rocq-level (ASCII) string, used for tokens and
    messages. *)
Definition truthy_str (s : string) : bool :=
  match s with EmptyString => false | String _ _ => true end.

(** A literal written in ASCII, as a JavaScript string. *)
Fixpoint of_ascii (s : string) : jsstring :=
  match s with
  | EmptyString => []
  | String c s' => Ascii.N_of_ascii c :: of_ascii s'
  end.

(** The values stored in the plain objects that cross the HTTP boundary. *)
Inductive value :=
  | VStr (s : string)
  | VNum (n : Z)
  | VBool (b : bool).

End JS.

(* ===================================================================== *)
(** ** types/index.ts                                                     *)
(* ===================================================================== *)

Module Types.
Import JS.

(** TypeScript [string] fields whose content is only stored, compared or
    concatenated are kept as [string]; the form fields of
    [CreateGroupRequest], on which the page calls [trim] and [length], are
    code-unit sequences. An optional field [f?: T] is an [option]. *)

Module User.
Record t := {
  uid : string;
  email : string;
  display_name : string;
  photo_url : option string;
  phone_number : option string;
  company_name : option string;
  job_title : option string;
  industry : option string;
  location : option string;
  bio : option string;
  created_at : string;
  updated_at : string;
  is_verified : bool;
  is_active : bool;
}.
End User.

(** ['public' | 'private' | 'invite_only'] *)
Inductive Privacy := public | private | invite_only.

Definition Privacy_literal (p : Privacy) : string :=
  match p with
  | public => "public"
  | private => "private"
  | invite_only => "invite_only"
  end.

Module Group.
Record t := {
  id : string;
  name : string;
  description : string;
  category : string;
  industry : string;
  privacy : Privacy;
  max_members : Z;
  current_members : Z;
  created_by : string;
  created_at : string;
  updated_at : string;
  is_active : bool;
  tags : list string;
  location : option string;
  website : option string;
  contact_email : option string;
}.
End Group.

Module CreateGroupRequest.
Record t := {
  name : jsstring;
  description : jsstring;
  category : jsstring;
  industry : jsstring;
  privacy : Privacy;
  max_members : Z;
  tags : list jsstring;
  location : option jsstring;
  website : option jsstring;
  contact_email : option jsstring;
}.
End CreateGroupRequest.

(** ['pending' | 'accepted' | 'declined' | 'expired'] *)
Inductive InvitationStatus := pending | accepted | declined | expired.

Definition InvitationStatus_literal (s : InvitationStatus) : string :=
  match s with
  | pending => "pending"
  | accepted => "accepted"
  | declined => "declined"
  | expired => "expired"
  end.

(** ['admin' | 'member'] *)
Inductive InvitationRole := admin | member.

Definition InvitationRole_literal (r : InvitationRole) : string :=
  match r with
  | admin => "admin"
  | member => "member"
  end.

(** [{ ...o, [k]: v }] for an optional field: the key exists only when the
    field is set. *)
Definition with_optional (k : string) (v : option string)
    (o : gmap string value) : gmap string value :=
  match v with
  | Some s => <[k := VStr s]> o
  | None => o
  end.

Module Invitation.
Record t := {
  id : string;
  group_id : string;
  group_name : string;
  invited_by : string;
  invited_by_name : string;
  invited_email : string;
  status : InvitationStatus;
  role : InvitationRole;
  created_at : string;
  expires_at : string;
  message : option string;
}.

(** The object an [Invitation] is at run time: one key per declared field. *)
Definition to_object (i : t) : gmap string value :=
  with_optional "message" (message i)
    (<["id" := VStr (id i)]>
    (<["group_id" := VStr (group_id i)]>
    (<["group_name" := VStr (group_name i)]>
    (<["invited_by" := VStr (invited_by i)]>
    (<["invited_by_name" := VStr (invited_by_name i)]>
    (<["invited_email" := VStr (invited_email i)]>
    (<["status" := VStr (InvitationStatus_literal (status i))]>
    (<["role" := VStr (InvitationRole_literal (role i))]>
    (<["created_at" := VStr (created_at i)]>
    (<["expires_at" := VStr (expires_at i)]> ∅)))))))))).
End Invitation.

Module CreateInvitationRequest.
Record t := {
  group_id : string;
  email : string;
  role : InvitationRole;
  message : option string;
}.

Definition to_object (r : t) : gmap string value :=
  with_optional "message" (message r)
    (<["group_id" := VStr (group_id r)]>
    (<["email" := VStr (email r)]>
    (<["role" := VStr (InvitationRole_literal (role r))]> ∅))).
End CreateInvitationRequest.

End Types.

(* ===================================================================== *)
(** ** services/api.ts                                                    *)
(* ===================================================================== *)

Module Api.
Import JS Types.

(** The two pieces of browser state the service touches. *)
Record Browser := {
  localStorage : gmap string string;
  location_href : string;
}.

Inductive Method := GET | POST | PUT | DELETE.

Record RequestConfig := {
  method : Method;
  url : string;
  headers : gmap string string;
  data : option (gmap string value);
}.

(** The instance defaults given to [axios.create]. *)
Definition defaultHeaders : gmap string string :=
  {["Content-Type" := "application/json"]}.

Definition request (m : Method) (u : string)
    (d : option (gmap string value)) : RequestConfig :=
  {| method := m; url := u; headers := defaultHeaders; data := d |}.

(** [config.headers[k] = v] *)
Definition set_header (k v : string) (config : RequestConfig)
  : RequestConfig :=
  {| method := method config; url := url config;
     headers := <[k := v]> (headers config); data := data config |}.

(** [localStorage.getItem]: [None] is JavaScript's [null]. *)
Definition getItem (k : string) (w : Browser) : option string :=
  localStorage w !! k.

(** The request interceptor (first argument of
    [interceptors.request.use]). [if (token)] is false for [null] and for
    the empty string. *)
Definition requestInterceptor (w : Browser) (config : RequestConfig)
  : RequestConfig :=
  match getItem "auth_token" w with
  | Some token =>
      if truthy_str token
      then set_header "Authorization" ("Bearer " +:+ token) config
      else config
  | None => config
  end.

Record Response := {
  status : Z;
  body : string;
}.

(** [error.response] is undefined when no response arrived. *)
Record AxiosError := {
  response : option Response;
}.

Inductive Settled :=
  | Fulfilled (r : Response)
  | Rejected (e : AxiosError).

(** axios settles a received response with its default [validateStatus]
    (the instance sets none): 2xx resolves, everything else rejects with
    the response attached to the error. *)
Definition validateStatus (st : Z) : bool :=
  bool_decide (200 ≤ st)%Z && bool_decide (st < 300)%Z.

Definition settle (r : Response) : Settled :=
  if validateStatus (status r) then Fulfilled r
  else Rejected {| response := Some r |}.

Inductive BrowserEffect :=
  | RemoveItem (key : string)
  | SetLocationHref (href : string).

Definition runEffect (w : Browser) (e : BrowserEffect) : Browser :=
  match e with
  | RemoveItem k =>
      {| localStorage := delete k (localStorage w);
         location_href := location_href w |}
  | SetLocationHref h =>
      {| localStorage := localStorage w; location_href := h |}
  end.

Definition runEffects (es : list BrowserEffect) (w : Browser) : Browser :=
  foldl runEffect w es.

Definition logoutEffects : list BrowserEffect :=
  [RemoveItem "auth_token"; RemoveItem "user"; SetLocationHref "/login"].

(** The response interceptor: the first handler passes a response through,
    the second one is the [(error) => ...] handler, which always re-rejects
    with the same error. *)
Definition onRejected (error : AxiosError) : list BrowserEffect :=
  if bool_decide (status <$> response error = Some 401%Z)
  then logoutEffects
  else [].

Definition responseInterceptor (s : Settled)
  : list BrowserEffect * Settled :=
  match s with
  | Fulfilled r => ([], Fulfilled r)
  | Rejected error => (onRejected error, Rejected error)
  end.

(** A response arriving at the service: settled by axios, then passed
    through the interceptor, whose effects hit the browser. *)
Definition receive (r : Response) (w : Browser) : Browser * Settled :=
  let '(es, out) := responseInterceptor (settle r) in
  (runEffects es w, out).

(** The methods under "Invitation endpoints". *)
Definition getInvitations : RequestConfig :=
  request GET "/invitations" None.

Definition getSentInvitations : RequestConfig :=
  request GET "/invitations/sent" None.

Definition createInvitation (invitationData : CreateInvitationRequest.t)
  : RequestConfig :=
  request POST "/invitations"
    (Some (CreateInvitationRequest.to_object invitationData)).

Definition acceptInvitation (invitationId : string) : RequestConfig :=
  request POST ("/invitations/" +:+ invitationId +:+ "/accept") None.

Definition declineInvitation (invitationId : string) : RequestConfig :=
  request POST ("/invitations/" +:+ invitationId +:+ "/decline") None.

Definition cancelInvitation (invitationId : string) : RequestConfig :=
  request DELETE ("/invitations/" +:+ invitationId) None.

Inductive InvitationOp :=
  | GetInvitations
  | GetSentInvitations
  | CreateInvitation (invitationData : CreateInvitationRequest.t)
  | AcceptInvitation (invitationId : string)
  | DeclineInvitation (invitationId : string)
  | CancelInvitation (invitationId : string).

Definition invitationRequest (op : InvitationOp) : RequestConfig :=
  match op with
  | GetInvitations => getInvitations
  | GetSentInvitations => getSentInvitations
  | CreateInvitation d => createInvitation d
  | AcceptInvitation i => acceptInvitation i
  | DeclineInvitation i => declineInvitation i
  | CancelInvitation i => cancelInvitation i
  end.

(** The two endpoints of the written interface, for comparison. *)
Definition redeemPath (token : string) : string :=
  "/invitations/" +:+ token +:+ "/redeem".

Definition validatePath (token : string) : string :=
  "/invitations/validate/" +:+ token.

(** The characters at which a URL stops naming a path: '#' opens the
    fragment, '?' the query. *)
Definition is_cut (c : Ascii.ascii) : bool :=
  let n := Ascii.N_of_ascii c in ((n =? 35) || (n =? 63))%N.

(** The part of a request URL that reaches the server as its path: what
    comes before the first '#' or '?'. Dot segments, which a URL parser
    also resolves, are left as they are; the properties below use
    [wirePath] on plain ids, which have none. *)
Fixpoint wirePath (u : string) : string :=
  match u with
  | EmptyString => EmptyString
  | String c u' => if is_cut c then EmptyString else String c (wirePath u')
  end.

(** Letters, digits, '-' and '_': the characters of an id that a URL
    carries to the server as they are, in any position. *)
Definition is_plain_char (c : Ascii.ascii) : bool :=
  let n := Ascii.N_of_ascii c in
  ((48 <=? n) && (n <=? 57) || (65 <=? n) && (n <=? 90)
   || (97 <=? n) && (n <=? 122) || (n =? 45) || (n =? 95))%N.

Fixpoint plain_id (s : string) : bool :=
  match s with
  | EmptyString => true
  | String c s' => is_plain_char c && plain_id s'
  end.

(** The id an invitation operation is addressed by, if it has one, is
    plain. *)
Definition plain_op (op : InvitationOp) : bool :=
  match op with
  | AcceptInvitation i | DeclineInvitation i | CancelInvitation i =>
      plain_id i
  | _ => true
  end.

End Api.

(* ===================================================================== *)
(** ** contexts/AuthContext.tsx                                           *)
(* ===================================================================== *)

Module AuthContext.
Import Types.

Record AuthState := {
  user : option User.t;
  isAuthenticated : bool;
  isLoading : bool;
  error : option string;
}.

(** The five declared actions; [UNKNOWN] stands for an action object whose
    [type] is none of them, which the [switch] sends to [default]. *)
Inductive AuthAction :=
  | AUTH_START
  | AUTH_SUCCESS (payload : User.t)
  | AUTH_FAILURE (payload : string)
  | AUTH_LOGOUT
  | CLEAR_ERROR
  | UNKNOWN (type : string).

Definition initialState : AuthState :=
  {| user := None; isAuthenticated := false; isLoading := true;
     error := None |}.

Definition authReducer (state : AuthState) (action : AuthAction)
  : AuthState :=
  match action with
  | AUTH_START =>
      {| user := user state; isAuthenticated := isAuthenticated state;
         isLoading := true; error := None |}
  | AUTH_SUCCESS payload =>
      {| user := Some payload; isAuthenticated := true;
         isLoading := false; error := None |}
  | AUTH_FAILURE payload =>
      {| user := None; isAuthenticated := false;
         isLoading := false; error := Some payload |}
  | AUTH_LOGOUT =>
      {| user := None; isAuthenticated := false;
         isLoading := false; error := None |}
  | CLEAR_ERROR =>
      {| user := user state; isAuthenticated := isAuthenticated state;
         isLoading := isLoading state; error := None |}
  | UNKNOWN _ => state
  end.

(** [isAuthenticated] implies a user is present. *)
Definition authenticated_has_user (state : AuthState) : Prop :=
  isAuthenticated state = true → is_Some (user state).

End AuthContext.

(* ===================================================================== *)
(** ** The group-creation page                                            *)
(* ===================================================================== *)

Module CreateGroupPage.
Import JS Types Types.CreateGroupRequest.

(** The component state held by the four [useState] hooks. [errors] is a
    [Record<string, string>]. *)
Record PageState := {
  formData : CreateGroupRequest.t;
  newTag : jsstring;
  errors : gmap string string;
  isSubmitting : bool;
}.

Definition initialFormData : CreateGroupRequest.t :=
  {| name := []; description := []; category := []; industry := [];
     privacy := public; max_members := 50; tags := [];
     location := Some []; website := None; contact_email := None |}.

Definition initialState : PageState :=
  {| formData := initialFormData; newTag := []; errors := ∅;
     isSubmitting := false |}.

(** [{ ...prev, tags: ts }] *)
Definition with_tags (ts : list jsstring) (fd : CreateGroupRequest.t)
  : CreateGroupRequest.t :=
  {| name := name fd; description := description fd;
     category := category fd; industry := industry fd;
     privacy := privacy fd; max_members := max_members fd; tags := ts;
     location := location fd; website := website fd;
     contact_email := contact_email fd |}.

Definition setFormData (f : CreateGroupRequest.t → CreateGroupRequest.t)
    (st : PageState) : PageState :=
  {| formData := f (formData st); newTag := newTag st;
     errors := errors st; isSubmitting := isSubmitting st |}.

Definition setNewTag (s : jsstring) (st : PageState) : PageState :=
  {| formData := formData st; newTag := s;
     errors := errors st; isSubmitting := isSubmitting st |}.

Definition setErrors (e : gmap string string) (st : PageState) : PageState :=
  {| formData := formData st; newTag := newTag st;
     errors := e; isSubmitting := isSubmitting st |}.

Definition setIsSubmitting (b : bool) (st : PageState) : PageState :=
  {| formData := formData st; newTag := newTag st;
     errors := errors st; isSubmitting := b |}.

(** The [MenuItem]s of the Privacy [Select]: submitted value and label. *)
Definition privacyMenuItems : list (string * string) :=
  [("public", "Public - Anyone can find and join");
   ("private", "Private - Hidden from search");
   ("invite_only", "Invite Only - Requires invitation")].

(** [addTag].  The guard reads [newTag] and [formData.tags] from the render
    the handler was created in ([rendered]); the two setters are applied to
    the state current when React runs them ([prev]). *)
Definition addTag (rendered prev : PageState) : PageState :=
  let t := trim (newTag rendered) in
  if truthy t && negb (includes (tags (formData rendered)) t)
  then setNewTag [] (setFormData (λ p, with_tags (tags p ++ [t]) p) prev)
  else prev.

(** [removeTag] *)
Definition removeTag (tag : jsstring) (prev : PageState) : PageState :=
  setFormData (λ p, with_tags (filter (λ t, t ≠ tag) (tags p)) p) prev.

(** What the user can do to the tag editor: type in the "Add Tag" field,
    press Add (or Enter), delete a chip. *)
Inductive TagEvent :=
  | TypeTag (s : jsstring)
  | AddTag
  | RemoveTag (tag : jsstring).

(** An event handled by the handler of the render that shows the current
    state, as it is when the component has re-rendered since the last
    event: the render [addTag] closes over is the state it updates. *)
Definition handleTagEvent (st : PageState) (ev : TagEvent) : PageState :=
  match ev with
  | TypeTag s => setNewTag s st
  | AddTag => addTag st st
  | RemoveTag tag => removeTag tag st
  end.

Definition runTagEvents (evs : list TagEvent) (st : PageState) : PageState :=
  foldl handleTagEvent st evs.

(** [validateForm]: builds [newErrors] field by field, stores it with
    [setErrors] and answers whether it has no key. [max_members] comes from
    a numeric input and is compared as a number. *)
Definition check_name (fd : CreateGroupRequest.t)
    (e : gmap string string) : gmap string string :=
  if negb (truthy (trim (name fd)))
  then <["name" := "Group name is required"]> e
  else if bool_decide (length (name fd) < 3)
  then <["name" := "Group name must be at least 3 characters"]> e
  else e.

Definition check_description (fd : CreateGroupRequest.t)
    (e : gmap string string) : gmap string string :=
  if negb (truthy (trim (description fd)))
  then <["description" := "Description is required"]> e
  else if bool_decide (length (description fd) < 10)
  then <["description" := "Description must be at least 10 characters"]> e
  else e.

Definition check_category (fd : CreateGroupRequest.t)
    (e : gmap string string) : gmap string string :=
  if negb (truthy (category fd))
  then <["category" := "Category is required"]> e
  else e.

Definition check_industry (fd : CreateGroupRequest.t)
    (e : gmap string string) : gmap string string :=
  if negb (truthy (industry fd))
  then <["industry" := "Industry is required"]> e
  else e.

Definition check_max_members (fd : CreateGroupRequest.t)
    (e : gmap string string) : gmap string string :=
  if bool_decide (max_members fd < 2)%Z || bool_decide (max_members fd > 1000)%Z
  then <["max_members" := "Maximum members must be between 2 and 1000"]> e
  else e.

Definition newErrors (fd : CreateGroupRequest.t) : gmap string string :=
  check_max_members fd
    (check_industry fd
      (check_category fd
        (check_description fd
          (check_name fd ∅)))).

Definition validateForm (st : PageState) : PageState * bool :=
  let e := newErrors (formData st) in
  (setErrors e st, bool_decide (size e = 0)).

(** What [handleSubmit] does to the outside world. *)
Inductive Effect :=
  | PreventDefault
  | ApiCreateGroup (groupData : CreateGroupRequest.t)
  | Navigate (path : string)
  | ConsoleError.

(** How [apiService.createGroup] settles: with the new group's id, or with
    an error whose [message] may be missing. *)
Inductive CreateGroupOutcome :=
  | Created (id : string)
  | Failed (message : option string).

(** [error.message || 'Failed to create group'] *)
Definition submit_message (message : option string) : string :=
  match message with
  | Some m => if truthy_str m then m else "Failed to create group"
  | None => "Failed to create group"
  end.

(** [handleSubmit] *)
Definition handleSubmit (outcome : CreateGroupOutcome) (st : PageState)
  : PageState * list Effect :=
  let '(st1, ok) := validateForm st in
  if negb ok then (st1, [PreventDefault])
  else
    let st2 := setIsSubmitting true st1 in
    match outcome with
    | Created id =>
        (setIsSubmitting false st2,
         [PreventDefault; ApiCreateGroup (formData st);
          Navigate ("/groups/" +:+ id)])
    | Failed message =>
        (setIsSubmitting false
           (setErrors {["submit" := submit_message message]} st2),
         [PreventDefault; ApiCreateGroup (formData st); ConsoleError])
    end.

End CreateGroupPage.

(* ===================================================================== *)
(** ** The group aggregate (server side)                                  *)
(* ===================================================================== *)

Module GroupAggregate.

(** Modelled from the spec: membership roles and the error kinds the
    operations below answer with. *)
Inductive Role := owner | admin | member.

Inductive Error :=
  | Forbidden
  | NotFound
  | AlreadyMember
  | GroupFull
  | ValidationError.

(** Modelled from the spec: the server's group record and roster are not
    part of the client sources; the attributes are those of the data model
    (member capacity, current member count, membership roster keyed by
    user with one role per user, privacy mode, active flag). *)
Record Group := {
  max_members : nat;
  current_member_count : nat;
  memberships : gmap string Role;
  privacy : Types.Privacy;
  active : bool;
}.


(** Modelled from the spec: the patch given to [update]; an absent field
    is left as it is. *)
Record Patch := {
  patch_max_members : option nat;
  patch_privacy : option Types.Privacy;
}.

(** Modelled from the spec: [require_admin(user, group)] holds when the
    user's membership role is owner or admin. *)
Definition require_admin (user : string) (g : Group) : bool :=
  match memberships g !! user with
  | Some owner | Some admin => true
  | _ => false
  end.


(** Modelled from the spec: [add_member(group, user, role)] checks, in one
    atomic step, the existing membership (uniqueness) and the current
    member count against the capacity, and only then adds. *)
Definition add_member (user : string) (role : Role) (g : Group)
  : Error + Group :=
  if decide (is_Some (memberships g !! user)) then inl AlreadyMember
  else if decide (max_members g ≤ current_member_count g) then inl GroupFull
  else inr {| max_members := max_members g;
              current_member_count := S (current_member_count g);
              memberships := <[user := role]> (memberships g);
              privacy := privacy g;
              active := active g |}.

(** Modelled from the spec: [remove_member(group, user)] destroys the
    membership (leave or admin removal); an owner's membership cannot be
    removed, the ownership transfer it would need being unspecified. *)
Definition remove_member (user : string) (g : Group) : Error + Group :=
  match memberships g !! user with
  | None => inl NotFound
  | Some owner => inl Forbidden
  | Some _ =>
      inr {| max_members := max_members g;
             current_member_count := pred (current_member_count g);
             memberships := delete user (memberships g);
             privacy := privacy g;
             active := active g |}
  end.

(** Modelled from the spec: [update(actor, group, patch)] requires
    [require_admin] and rejects changes that would violate the capacity
    invariant. *)
Definition update (actor : string) (p : Patch) (g : Group)
  : Error + Group :=
  if negb (require_admin actor g) then inl Forbidden
  else
    let m := default (max_members g) (patch_max_members p) in
    if decide (m < current_member_count g) then inl ValidationError
    else inr {| max_members := m;
                current_member_count := current_member_count g;
                memberships := memberships g;
                privacy := default (privacy g) (patch_privacy p);
                active := active g |}.

(** Modelled from the spec: [deactivate(actor, group)] requires
    [require_admin] and clears the active flag (soft delete). *)
Definition deactivate (actor : string) (g : Group) : Error + Group :=
  if negb (require_admin actor g) then inl Forbidden
  else inr {| max_members := max_members g;
              current_member_count := current_member_count g;
              memberships := memberships g;
              privacy := privacy g;
              active := false |}.

(** Modelled from the spec: the operations of the aggregate that change an
    existing group. *)
Inductive Op :=
  | AddMember (user : string) (role : Role)
  | RemoveMember (user : string)
  | Update (actor : string) (p : Patch)
  | Deactivate (actor : string).

Definition apply (op : Op) (g : Group) : Error + Group :=
  match op with
  | AddMember u r => add_member u r g
  | RemoveMember u => remove_member u g
  | Update a p => update a p g
  | Deactivate a => deactivate a g
  end.



End GroupAggregate.

(* ===================================================================== *)
(** ** Regular expressions                                                *)
(* ===================================================================== *)

Module Regex.
Import JS.

(** The fragment of JavaScript regular expressions the pages use:
    character classes, sequence, alternation and repetition, without
    anchors, groups or flags. *)
Inductive regex :=
  | Void
  | Eps
  | Class (p : code_unit → bool)
  | Seq (r1 r2 : regex)
  | Alt (r1 r2 : regex)
  | Star (r : regex).

(** [r+] *)
Definition Plus (r : regex) : regex := Seq r (Star r).

(** A literal character. *)
Definition Chr (c : code_unit) : regex := Class (λ x, bool_decide (x = c)).

(** [\S]: any code unit that is not white space or a line terminator. *)
Definition NonSpace : regex := Class (λ x, negb (is_white_space x)).

Definition Any : regex := Class (λ _, true).

(** The strings a pattern matches as a whole. *)
Inductive matches : regex → jsstring → Prop :=
  | matches_eps : matches Eps []
  | matches_class p c : p c = true → matches (Class p) [c]
  | matches_seq r1 r2 s1 s2 :
      matches r1 s1 → matches r2 s2 → matches (Seq r1 r2) (s1 ++ s2)
  | matches_alt_l r1 r2 s : matches r1 s → matches (Alt r1 r2) s
  | matches_alt_r r1 r2 s : matches r2 s → matches (Alt r1 r2) s
  | matches_star_nil r : matches (Star r) []
  | matches_star_app r s1 s2 :
      matches r s1 → matches (Star r) s2 → matches (Star r) (s1 ++ s2).

Fixpoint nullable (r : regex) : bool :=
  match r with
  | Void => false
  | Eps => true
  | Class _ => false
  | Seq r1 r2 => nullable r1 && nullable r2
  | Alt r1 r2 => nullable r1 || nullable r2
  | Star _ => true
  end.

(** What is left of the pattern after it has read [c]. *)
Fixpoint deriv (c : code_unit) (r : regex) : regex :=
  match r with
  | Void => Void
  | Eps => Void
  | Class p => if p c then Eps else Void
  | Seq r1 r2 =>
      if nullable r1
      then Alt (Seq (deriv c r1) r2) (deriv c r2)
      else Seq (deriv c r1) r2
  | Alt r1 r2 => Alt (deriv c r1) (deriv c r2)
  | Star r1 => Seq (deriv c r1) (Star r1)
  end.

Fixpoint matchb (r : regex) (s : jsstring) : bool :=
  match s with
  | [] => nullable r
  | c :: s' => matchb (deriv c r) s'
  end.

(** [RegExp.prototype.test] for a pattern without anchors: is there a
    match starting and ending anywhere in the string? *)
Definition test (r : regex) (s : jsstring) : bool :=
  matchb (Seq (Star Any) (Seq r (Star Any))) s.

End Regex.

(* ===================================================================== *)
(** ** types/index.ts: request and response types                         *)
(* ===================================================================== *)

Module ApiTypes.
Import JS Types.

Module LoginRequest.
Record t := {
  email : jsstring;
  password : jsstring;
}.
End LoginRequest.

Module RegisterRequest.
Record t := {
  email : jsstring;
  password : jsstring;
  display_name : jsstring;
  company_name : option jsstring;
  job_title : option jsstring;
  industry : option jsstring;
  location : option jsstring;
  phone_number : option jsstring;
}.
End RegisterRequest.

Module AuthResponse.
Record t := {
  user : User.t;
  token : string;
  refresh_token : string;
}.
End AuthResponse.

Module PaginatedResponse.
Record t (A : Type) := {
  data : list A;
  total : Z;
  page : Z;
  per_page : Z;
  has_next : bool;
  has_prev : bool;
}.
Arguments data {A} _.
Arguments total {A} _.
Arguments page {A} _.
Arguments per_page {A} _.
Arguments has_next {A} _.
Arguments has_prev {A} _.
End PaginatedResponse.

End ApiTypes.

(* ===================================================================== *)
(** ** services/api.ts: the calls made by the provider and the pages      *)
(* ===================================================================== *)

Module ApiService.
Import JS Types ApiTypes Api.

(** How an awaited service method settles: with the data of a 2xx
    response, or by throwing the error the response interceptor re-rejects
    with. *)
Inductive Outcome (A : Type) :=
  | Resolved (data : A)
  | Threw (error : AxiosError).
Arguments Resolved {A} data.
Arguments Threw {A} error.

(** The browser effects of the response interceptor when the call
    settles. *)
Definition settleEffects {A} (o : Outcome A) : list BrowserEffect :=
  match o with
  | Resolved _ => []
  | Threw error => (responseInterceptor (Rejected error)).1
  end.

(** Request bodies and query parameters, kept typed. *)
Inductive Payload :=
  | NoPayload
  | LoginPayload (credentials : LoginRequest.t)
  | RegisterPayload (userData : RegisterRequest.t)
  | ProfilePayload (userData : gmap string value)
  | PageParams (page per_page : Z).

(** A request as it leaves the client, after the request interceptor. *)
Record Sent := {
  sent_method : Method;
  sent_url : string;
  sent_headers : gmap string string;
  sent_payload : Payload;
}.

(** The browser state together with the requests sent so far. *)
Record Client := {
  browser : Browser;
  sent : list Sent;
}.

Definition onBrowser (f : Browser → Browser) (c : Client) : Client :=
  {| browser := f (browser c); sent := sent c |}.

Definition setItem (k v : string) (c : Client) : Client :=
  onBrowser (λ w, {| localStorage := <[k := v]> (localStorage w);
                     location_href := location_href w |}) c.

Definition removeItem (k : string) (c : Client) : Client :=
  onBrowser (λ w, runEffect w (RemoveItem k)) c.

(** A request leaving through the axios instance: it passes the request
    interceptor with the storage as it is now. *)
Definition send (m : Method) (u : string) (p : Payload) (c : Client)
  : Client :=
  {| browser := browser c;
     sent := sent c
             ++ [{| sent_method := m; sent_url := u;
                    sent_headers :=
                      headers (requestInterceptor (browser c)
                                 (request m u None));
                    sent_payload := p |}] |}.

(** A call settling: the response interceptor acts on the browser. *)
Definition settled {A} (o : Outcome A) (c : Client) : Client :=
  onBrowser (runEffects (settleEffects o)) c.

(** An awaited call: sent, then settled. *)
Definition call {A} (m : Method) (u : string) (p : Payload)
    (o : Outcome A) (c : Client) : Client :=
  settled o (send m u p c).

Definition login (credentials : LoginRequest.t)
    (o : Outcome AuthResponse.t) : Client → Client :=
  call POST "/auth/login" (LoginPayload credentials) o.

Definition register (userData : RegisterRequest.t)
    (o : Outcome AuthResponse.t) : Client → Client :=
  call POST "/auth/register" (RegisterPayload userData) o.

(** [logout]: the two removals run only when the awaited post resolved. *)
Definition logout (o : Outcome ()) (c : Client) : Client :=
  let c1 := call POST "/auth/logout" NoPayload o c in
  match o with
  | Resolved _ => removeItem "user" (removeItem "auth_token" c1)
  | Threw _ => c1
  end.

Definition getCurrentUser (o : Outcome User.t) : Client → Client :=
  call GET "/users/me" NoPayload o.

Definition updateProfile (userData : gmap string value)
    (o : Outcome User.t) : Client → Client :=
  call PUT "/users/me" (ProfilePayload userData) o.

(** Two calls started together and awaited with [Promise.all]: both
    requests leave before either response arrives; the responses are then
    handled in their order of arrival. *)
Definition callBoth {A B} (first_is_left : bool)
    (m1 : Method) (u1 : string) (p1 : Payload) (o1 : Outcome A)
    (m2 : Method) (u2 : string) (p2 : Payload) (o2 : Outcome B)
    (c : Client) : Client :=
  let c1 := send m2 u2 p2 (send m1 u1 p1 c) in
  if first_is_left then settled o2 (settled o1 c1)
  else settled o1 (settled o2 c1).

End ApiService.

(* ===================================================================== *)
(** ** contexts/AuthContext.tsx: the provider                             *)
(* ===================================================================== *)

Module AuthProvider.
Import JS Types ApiTypes Api AuthContext ApiService.

(** What holds of every state the reducer reaches from the initial one:
    authenticated exactly when a user is present, and never authenticated,
    loading or with a user while an error is recorded. *)
Definition session_consistent (s : AuthState) : Prop :=
  (isAuthenticated s = true ↔ is_Some (user s))
  ∧ (is_Some (error s) →
     isAuthenticated s = false ∧ user s = None ∧ isLoading s = false).

Record Store := {
  client : Client;
  auth : AuthState;
}.

Definition dispatch (a : AuthAction) (st : Store) : Store :=
  {| client := client st; auth := authReducer (auth st) a |}.

Definition onClient (f : Client → Client) (st : Store) : Store :=
  {| client := f (client st); auth := auth st |}.

(** How an async function of the provider ends. *)
Inductive Completion :=
  | Returned
  | Thrown (error : AxiosError).

(** ToBoolean of what [localStorage.getItem] returns. *)
Definition truthy_item (v : option string) : bool :=
  match v with
  | Some s => truthy_str s
  | None => false
  end.

Section Provider.
(** [JSON.stringify] on a user, and the [detail] member of an error
    response's body, if it has one. *)
Variable stringify : User.t → string.
Variable detailOf : string → option string.

(** [error.response?.data?.detail || fallback] *)
Definition errorMessage (fallback : string) (error : AxiosError) : string :=
  match response error ≫= (λ r, detailOf (body r)) with
  | Some d => if truthy_str d then d else fallback
  | None => fallback
  end.

(** [checkAuthStatus], run once when the provider mounts. *)
Definition checkAuthStatus (o : Outcome User.t) (st : Store) : Store :=
  let token := getItem "auth_token" (browser (client st)) in
  let userData := getItem "user" (browser (client st)) in
  if truthy_item token && truthy_item userData then
    let st1 := onClient (getCurrentUser o) (dispatch AUTH_START st) in
    match o with
    | Resolved u => dispatch (AUTH_SUCCESS u) st1
    | Threw _ =>
        dispatch (AUTH_FAILURE "Session expired")
          (onClient (removeItem "user")
             (onClient (removeItem "auth_token") st1))
    end
  else dispatch (AUTH_FAILURE "") st.

(** The three [setItem]s and the dispatch shared by [login] and
    [register] after a resolved call. *)
Definition storeSession (r : AuthResponse.t) (st : Store) : Store :=
  dispatch (AUTH_SUCCESS (AuthResponse.user r))
    (onClient (setItem "user" (stringify (AuthResponse.user r)))
       (onClient (setItem "refresh_token" (AuthResponse.refresh_token r))
          (onClient (setItem "auth_token" (AuthResponse.token r)) st))).

Definition login (email password : jsstring)
    (o : Outcome AuthResponse.t) (st : Store) : Store * Completion :=
  let st1 :=
    onClient (ApiService.login
                {| LoginRequest.email := email;
                   LoginRequest.password := password |} o)
      (dispatch AUTH_START st) in
  match o with
  | Resolved r => (storeSession r st1, Returned)
  | Threw e =>
      (dispatch (AUTH_FAILURE (errorMessage "Login failed" e)) st1,
       Thrown e)
  end.

Definition register (userData : RegisterRequest.t)
    (o : Outcome AuthResponse.t) (st : Store) : Store * Completion :=
  let st1 :=
    onClient (ApiService.register userData o) (dispatch AUTH_START st) in
  match o with
  | Resolved r => (storeSession r st1, Returned)
  | Threw e =>
      (dispatch (AUTH_FAILURE (errorMessage "Registration failed" e)) st1,
       Thrown e)
  end.

(** [logout]: the error of the call is caught; the [finally] block always
    runs. *)
Definition logout (o : Outcome ()) (st : Store) : Store :=
  dispatch AUTH_LOGOUT
    (onClient (removeItem "user")
       (onClient (removeItem "refresh_token")
          (onClient (removeItem "auth_token")
             (onClient (ApiService.logout o) st)))).

Definition updateUser (userData : gmap string value)
    (o : Outcome User.t) (st : Store) : Store * Completion :=
  let st1 := onClient (updateProfile userData o) st in
  match o with
  | Resolved updatedUser =>
      (onClient (setItem "user" (stringify updatedUser))
         (dispatch (AUTH_SUCCESS updatedUser) st1),
       Returned)
  | Threw e =>
      (dispatch (AUTH_FAILURE (errorMessage "Profile update failed" e)) st1,
       Thrown e)
  end.

Definition clearError (st : Store) : Store := dispatch CLEAR_ERROR st.

End Provider.

(** The store the application starts with, over a given browser. *)
Definition initialStore (w : Browser) : Store :=
  {| client := {| browser := w; sent := [] |};
     auth := AuthContext.initialState |}.

End AuthProvider.

(* ===================================================================== *)
(** ** pages/LoginPage.tsx                                                *)
(* ===================================================================== *)

Module LoginPage.
Import JS Types ApiTypes Api AuthContext ApiService AuthProvider.

Record PageState := {
  email : jsstring;
  password : jsstring;
  isSubmitting : bool;
}.

Definition initialState : PageState :=
  {| email := []; password := []; isSubmitting := false |}.

Definition setIsSubmitting (b : bool) (p : PageState) : PageState :=
  {| email := email p; password := password p; isSubmitting := b |}.

Inductive Effect :=
  | PreventDefault
  | Navigate (path : string)
  | ConsoleError.

(** [handleSubmit] *)
Definition handleSubmit (stringify : User.t → string)
    (detailOf : string → option string)
    (o : Outcome AuthResponse.t) (p : PageState) (st : Store)
  : PageState * Store * list Effect :=
  let p1 := setIsSubmitting true p in
  let st1 := clearError st in
  let '(st2, completion) :=
    login stringify detailOf (email p) (password p) o st1 in
  match completion with
  | Returned =>
      (setIsSubmitting false p1, st2, [PreventDefault; Navigate "/dashboard"])
  | Thrown _ =>
      (setIsSubmitting false p1, st2, [PreventDefault; ConsoleError])
  end.

End LoginPage.

(* ===================================================================== *)
(** ** pages/RegisterPage.tsx                                             *)
(* ===================================================================== *)

Module RegisterPage.
Import JS Types ApiTypes Api AuthContext ApiService AuthProvider Regex.

Record FormData := {
  email : jsstring;
  password : jsstring;
  confirmPassword : jsstring;
  display_name : jsstring;
  company_name : jsstring;
  job_title : jsstring;
  industry : jsstring;
  location : jsstring;
  phone_number : jsstring;
}.

Record PageState := {
  formData : FormData;
  isSubmitting : bool;
  errors : gmap string string;
}.

Definition initialFormData : FormData :=
  {| email := []; password := []; confirmPassword := [];
     display_name := []; company_name := []; job_title := [];
     industry := []; location := []; phone_number := [] |}.

Definition initialState : PageState :=
  {| formData := initialFormData; isSubmitting := false; errors := ∅ |}.

Definition setFormData (f : FormData → FormData) (p : PageState)
  : PageState :=
  {| formData := f (formData p); isSubmitting := isSubmitting p;
     errors := errors p |}.

Definition setErrors (f : gmap string string → gmap string string)
    (p : PageState) : PageState :=
  {| formData := formData p; isSubmitting := isSubmitting p;
     errors := f (errors p) |}.

Definition setIsSubmitting (b : bool) (p : PageState) : PageState :=
  {| formData := formData p; isSubmitting := b; errors := errors p |}.

(** The names [handleChange] is called with. *)
Inductive Field :=
  | f_email | f_password | f_confirmPassword | f_display_name
  | f_company_name | f_job_title | f_industry | f_location
  | f_phone_number.

Definition field_key (f : Field) : string :=
  match f with
  | f_email => "email"
  | f_password => "password"
  | f_confirmPassword => "confirmPassword"
  | f_display_name => "display_name"
  | f_company_name => "company_name"
  | f_job_title => "job_title"
  | f_industry => "industry"
  | f_location => "location"
  | f_phone_number => "phone_number"
  end.

(** [{ ...prev, [field]: value }] *)
Definition set_field (f : Field) (v : jsstring) (d : FormData) : FormData :=
  {| email := if f is f_email then v else email d;
     password := if f is f_password then v else password d;
     confirmPassword :=
       if f is f_confirmPassword then v else confirmPassword d;
     display_name := if f is f_display_name then v else display_name d;
     company_name := if f is f_company_name then v else company_name d;
     job_title := if f is f_job_title then v else job_title d;
     industry := if f is f_industry then v else industry d;
     location := if f is f_location then v else location d;
     phone_number := if f is f_phone_number then v else phone_number d |}.

Definition get_field (f : Field) (d : FormData) : jsstring :=
  match f with
  | f_email => email d
  | f_password => password d
  | f_confirmPassword => confirmPassword d
  | f_display_name => display_name d
  | f_company_name => company_name d
  | f_job_title => job_title d
  | f_industry => industry d
  | f_location => location d
  | f_phone_number => phone_number d
  end.

(** [handleChange(field)(event)], fired on the rendered state: the value
    is stored, and an error shown for the field is blanked. *)
Definition handleChange (f : Field) (v : jsstring) (p : PageState)
  : PageState :=
  let p1 := setFormData (set_field f v) p in
  if truthy_item (errors p !! field_key f)
  then setErrors (λ prev, <[field_key f := ""]> prev) p1
  else p1.

(** What the form shows: [error={!!errors[field]}]. *)
Definition showsError (f : Field) (p : PageState) : bool :=
  truthy_item (errors p !! field_key f).

(** [/\S+@\S+\.\S+/] *)
Definition emailPattern : regex :=
  Seq (Plus NonSpace)
    (Seq (Chr 64%N)
       (Seq (Plus NonSpace)
          (Seq (Chr 46%N) (Plus NonSpace)))).

Definition check_email (d : FormData) (e : gmap string string)
  : gmap string string :=
  if negb (truthy (email d))
  then <["email" := "Email is required"]> e
  else if negb (test emailPattern (email d))
  then <["email" := "Email is invalid"]> e
  else e.

Definition check_password (d : FormData) (e : gmap string string)
  : gmap string string :=
  if negb (truthy (password d))
  then <["password" := "Password is required"]> e
  else if bool_decide (length (password d) < 8)
  then <["password" := "Password must be at least 8 characters"]> e
  else e.

Definition check_confirmPassword (d : FormData) (e : gmap string string)
  : gmap string string :=
  if bool_decide (password d ≠ confirmPassword d)
  then <["confirmPassword" := "Passwords do not match"]> e
  else e.

Definition check_display_name (d : FormData) (e : gmap string string)
  : gmap string string :=
  if negb (truthy (display_name d))
  then <["display_name" := "Display name is required"]> e
  else e.

Definition newErrors (d : FormData) : gmap string string :=
  check_display_name d
    (check_confirmPassword d
      (check_password d
        (check_email d ∅))).

(** [validateForm] *)
Definition validateForm (p : PageState) : PageState * bool :=
  let e := newErrors (formData p) in
  (setErrors (λ _, e) p, bool_decide (size e = 0)).

(** [const { confirmPassword, ...registerData } = formData] *)
Definition registerData (d : FormData) : RegisterRequest.t :=
  {| RegisterRequest.email := email d;
     RegisterRequest.password := password d;
     RegisterRequest.display_name := display_name d;
     RegisterRequest.company_name := Some (company_name d);
     RegisterRequest.job_title := Some (job_title d);
     RegisterRequest.industry := Some (industry d);
     RegisterRequest.location := Some (location d);
     RegisterRequest.phone_number := Some (phone_number d) |}.

Inductive Effect :=
  | PreventDefault
  | Navigate (path : string)
  | ConsoleError.

(** [handleSubmit] *)
Definition handleSubmit (stringify : User.t → string)
    (detailOf : string → option string)
    (o : Outcome AuthResponse.t) (p : PageState) (st : Store)
  : PageState * Store * list Effect :=
  let st1 := clearError st in
  let '(p1, ok) := validateForm p in
  if negb ok then (p1, st1, [PreventDefault])
  else
    let p2 := setIsSubmitting true p1 in
    let '(st2, completion) :=
      register stringify detailOf (registerData (formData p)) o st1 in
    match completion with
    | Returned =>
        (setIsSubmitting false p2, st2,
         [PreventDefault; Navigate "/dashboard"])
    | Thrown _ =>
        (setIsSubmitting false p2, st2, [PreventDefault; ConsoleError])
    end.

End RegisterPage.

(* ===================================================================== *)
(** ** pages/DashboardPage.tsx                                            *)
(* ===================================================================== *)

Module DashboardPage.
Import JS Types ApiTypes Api ApiService.

Record PageState := {
  groups : list Group.t;
  invitations : list Invitation.t;
  loading : bool;
  error : option string;
}.

Definition initialState : PageState :=
  {| groups := []; invitations := []; loading := true; error := None |}.

(** [inv.status === 'pending'] *)
Definition isPending (inv : Invitation.t) : bool :=
  bool_decide (InvitationStatus_literal (Invitation.status inv) = "pending").

(** How [Promise.all] over the two calls settles: with both results, or
    with the error of the call that rejected first ([first_is_left]: the
    first call's response arrives first). *)
Definition all {A B} (first_is_left : bool)
    (o1 : Outcome A) (o2 : Outcome B) : Outcome (A * B) :=
  match o1, o2 with
  | Resolved a, Resolved b => Resolved (a, b)
  | Threw e, Resolved _ => Threw e
  | Resolved _, Threw e => Threw e
  | Threw e1, Threw e2 => Threw (if first_is_left then e1 else e2)
  end.

(** [fetchDashboardData]: [getGroups(1, 5)] and [getInvitations()] are
    started, then awaited together. [messageOf] reads [err.message]. *)
Definition fetchDashboardData (messageOf : AxiosError → option string)
    (first_is_left : bool)
    (o1 : Outcome (PaginatedResponse.t Group.t))
    (o2 : Outcome (list Invitation.t))
    (p : PageState) (c : Client) : PageState * Client :=
  let c1 :=
    callBoth first_is_left
      GET "/groups" (PageParams 1 5) o1
      GET "/invitations" NoPayload o2 c in
  match all first_is_left o1 o2 with
  | Resolved (groupsResponse, invitationsResponse) =>
      ({| groups := PaginatedResponse.data groupsResponse;
          invitations := filter (λ inv, isPending inv = true)
                           invitationsResponse;
          loading := false; error := error p |}, c1)
  | Threw err =>
      ({| groups := groups p; invitations := invitations p;
          loading := false;
          error := Some (match messageOf err with
                         | Some m =>
                             if truthy_str m then m
                             else "Failed to load dashboard data"
                         | None => "Failed to load dashboard data"
                         end) |}, c1)
  end.

(** The counter of the "Pending Invitations" card. *)
Definition pendingInvitations (p : PageState) : nat :=
  length (invitations p).

(** [invitations.slice(0, 3)] *)
Definition listedInvitations (p : PageState) : list Invitation.t :=
  take 3 (invitations p).

End DashboardPage.

(* ===================================================================== *)
(** ** What the provider guarantees, as predicates on stores              *)
(* ===================================================================== *)

Module SessionFacts.
Import JS Types ApiTypes Api AuthContext ApiService AuthProvider.

(** The reducer state after a success with [u], after a failure with
    message [m], and after a logout. *)
Definition signedIn (u : User.t) : AuthState :=
  {| user := Some u; isAuthenticated := true;
     isLoading := false; error := None |}.

Definition signedOut (e : option string) : AuthState :=
  {| user := None; isAuthenticated := false;
     isLoading := false; error := e |}.

Definition storage (st : Store) : gmap string string :=
  localStorage (browser (client st)).

(** The headers the next request to [u] would leave with. *)
Definition nextHeaders (st : Store) (m : Method) (u : string)
  : gmap string string :=
  headers (requestInterceptor (browser (client st)) (request m u None)).

(** [after] holds the session of response [r] on top of [before]. *)
Definition session_stored (stringify : User.t → string)
    (r : AuthResponse.t) (before after : Store) : Prop :=
  auth after = signedIn (AuthResponse.user r)
  ∧ storage after !! "auth_token" = Some (AuthResponse.token r)
  ∧ storage after !! "refresh_token" = Some (AuthResponse.refresh_token r)
  ∧ storage after !! "user" = Some (stringify (AuthResponse.user r))
  ∧ (∀ k, k ≠ "auth_token" → k ≠ "refresh_token" → k ≠ "user" →
       storage after !! k = storage before !! k)
  ∧ location_href (browser (client after))
    = location_href (browser (client before)).

(** What a rejected call does to the browser of [before]: nothing, unless
    the error carries a 401 response, in which case the two session keys
    go and the location becomes '/login'. *)
Definition browser_after_rejection (error : AxiosError)
    (before after : Store) : Prop :=
  (status <$> response error ≠ Some 401%Z →
   browser (client after) = browser (client before))
  ∧ (status <$> response error = Some 401%Z →
     browser (client after)
     = {| localStorage :=
            delete "user" (delete "auth_token" (storage before));
          location_href := "/login" |}).

End SessionFacts.

(* ===================================================================== *)
(** ** Sample values                                                      *)
(* ===================================================================== *)

Module Sample.
Import Types.

Definition alice : User.t :=
  {| User.uid := "u1"; User.email := "alice@example.com";
     User.display_name := "Alice"; User.photo_url := None;
     User.phone_number := None; User.company_name := None;
     User.job_title := None; User.industry := None;
     User.location := None; User.bio := None;
     User.created_at := "2024-01-01T00:00:00Z";
     User.updated_at := "2024-01-01T00:00:00Z";
     User.is_verified := true; User.is_active := true |}.

Definition loggedIn : Api.Browser :=
  {| Api.localStorage := {["auth_token" := "abc"; "user" := "{}";
                           "refresh_token" := "r"]};
     Api.location_href := "/dashboard" |}.

Definition emptyToken : Api.Browser :=
  {| Api.localStorage := {["auth_token" := ""]};
     Api.location_href := "/dashboard" |}.

Definition invitation : Invitation.t :=
  {| Invitation.id := "inv1"; Invitation.group_id := "g1";
     Invitation.group_name := "Steel buyers";
     Invitation.invited_by := "u1";
     Invitation.invited_by_name := "Alice";
     Invitation.invited_email := "bob@example.com";
     Invitation.status := pending; Invitation.role := member;
     Invitation.created_at := "2024-01-01T00:00:00Z";
     Invitation.expires_at := "2024-02-01T00:00:00Z";
     Invitation.message := None |}.

(** A form that passes validation, and one whose name is only blanks. *)
Definition goodForm : CreateGroupRequest.t :=
  {| CreateGroupRequest.name := JS.of_ascii "Steel buyers";
     CreateGroupRequest.description := JS.of_ascii "Joint steel purchasing";
     CreateGroupRequest.category := JS.of_ascii "Manufacturing";
     CreateGroupRequest.industry := JS.of_ascii "Automotive";
     CreateGroupRequest.privacy := public;
     CreateGroupRequest.max_members := 50;
     CreateGroupRequest.tags := [JS.of_ascii "steel"];
     CreateGroupRequest.location := Some [];
     CreateGroupRequest.website := None;
     CreateGroupRequest.contact_email := None |}.

Definition blankNameForm : CreateGroupRequest.t :=
  {| CreateGroupRequest.name := JS.of_ascii "    ";
     CreateGroupRequest.description := JS.of_ascii "Joint steel purchasing";
     CreateGroupRequest.category := JS.of_ascii "Manufacturing";
     CreateGroupRequest.industry := JS.of_ascii "Automotive";
     CreateGroupRequest.privacy := public;
     CreateGroupRequest.max_members := 50;
     CreateGroupRequest.tags := [];
     CreateGroupRequest.location := Some [];
     CreateGroupRequest.website := None;
     CreateGroupRequest.contact_email := None |}.

Definition page (fd : CreateGroupRequest.t) (typed : string)
  : CreateGroupPage.PageState :=
  {| CreateGroupPage.formData := fd;
     CreateGroupPage.newTag := JS.of_ascii typed;
     CreateGroupPage.errors := ∅;
     CreateGroupPage.isSubmitting := false |}.



Definition steelGroup : GroupAggregate.Group :=
  {| GroupAggregate.max_members := 2;
     GroupAggregate.current_member_count := 2;
     GroupAggregate.memberships :=
       <["u2" := GroupAggregate.member]> {["u1" := GroupAggregate.owner]};
     GroupAggregate.privacy := public;
     GroupAggregate.active := true |}.

End Sample.

(* ===================================================================== *)
(** ** Sample values for the session and the registration page            *)
(* ===================================================================== *)

Module Fixtures.
Import Types ApiTypes.

Definition session : AuthResponse.t :=
  {| AuthResponse.user := Sample.alice;
     AuthResponse.token := "tok";
     AuthResponse.refresh_token := "ref" |}.

(** A serializer to run the provider with: the user's id. *)
Definition uidOnly (u : User.t) : string := User.uid u.

(** A body reader to run the provider with: the body is the detail. *)
Definition bodyAsDetail (body : string) : option string := Some body.

Definition registration : RegisterPage.FormData :=
  {| RegisterPage.email := JS.of_ascii "alice@example.com";
     RegisterPage.password := JS.of_ascii "correct horse";
     RegisterPage.confirmPassword := JS.of_ascii "correct horse";
     RegisterPage.display_name := JS.of_ascii "Alice";
     RegisterPage.company_name := [];
     RegisterPage.job_title := [];
     RegisterPage.industry := [];
     RegisterPage.location := [];
     RegisterPage.phone_number := [] |}.

Definition registerPage : RegisterPage.PageState :=
  {| RegisterPage.formData := registration;
     RegisterPage.isSubmitting := false;
     RegisterPage.errors := ∅ |}.

Definition anonymous : AuthProvider.Store :=
  AuthProvider.initialStore
    {| Api.localStorage := ∅; Api.location_href := "/login" |}.

End Fixtures.

(* ===================================================================== *)
(** * Properties                                                          *)
(* ===================================================================== *)

(** ** The auth reducer *)

Section AuthReducer.
Import AuthContext.

Lemma authReducer_success_fields state payload :
  authReducer state (AUTH_SUCCESS payload)
  = {| user := Some payload; isAuthenticated := true;
       isLoading := false; error := None |}.
Proof. reflexivity. Qed.

(** C8. The reducer keeps "authenticated implies a user is present": from
    any state with that property, any action (one of the five declared
    ones or an unknown one) leads to a state with it. Moreover
    AUTH_SUCCESS always ends with [isLoading = false] and [error = null]. *)
Theorem authReducer_preserves_authenticated_has_user state action :
  (authenticated_has_user state →
   authenticated_has_user (authReducer state action))
  ∧ (∀ payload,
       isLoading (authReducer state (AUTH_SUCCESS payload)) = false
       ∧ error (authReducer state (AUTH_SUCCESS payload)) = None).
Proof.
  split; [|by intros payload; rewrite authReducer_success_fields].
  unfold authenticated_has_user.
  destruct action as [ | payload | msg | | | ty ]; simpl; intros Hinv Hauth;
    try discriminate; eauto.
Qed.

Lemma authReducer_preserves_witness :
  authenticated_has_user
    (authReducer (authReducer initialState AUTH_START)
                 (AUTH_SUCCESS Sample.alice)).
Proof.
  apply (proj1 (authReducer_preserves_authenticated_has_user
                  (authReducer initialState AUTH_START)
                  (AUTH_SUCCESS Sample.alice))).
  unfold authenticated_has_user; simpl; discriminate.
Defined.

(** The property holds along every run of the reducer from the initial
    state. *)
Lemma authReducer_run_authenticated_has_user actions :
  authenticated_has_user (foldl authReducer initialState actions).
Proof.
  induction actions as [|a actions IH] using rev_ind.
  - unfold authenticated_has_user; simpl; discriminate.
  - rewrite foldl_app; simpl.
    destruct a; unfold authenticated_has_user in *; simpl; intros;
      try discriminate; eauto.
Qed.

End AuthReducer.

(** ** The axios interceptors *)

Section Interceptors.
Import JS Api.

Lemma validateStatus_401 : validateStatus 401 = false.
Proof. reflexivity. Qed.

Lemma settle_rejects_non_2xx r :
  validateStatus (status r) = false →
  settle r = Rejected {| response := Some r |}.
Proof. unfold settle; intros ->; reflexivity. Qed.

Lemma onRejected_spec error :
  onRejected error
  = match response error with
    | Some r => if decide (status r = 401%Z) then logoutEffects else []
    | None => []
    end.
Proof.
  unfold onRejected. destruct (response error) as [r|]; simpl.
  - destruct (decide (status r = 401%Z)) as [->|Hne].
    + by rewrite bool_decide_eq_true_2.
    + rewrite bool_decide_eq_false_2; [done | congruence].
  - reflexivity.
Qed.

(** The effects of the interceptor on a received response. *)
Lemma responseInterceptor_settle r :
  (responseInterceptor (settle r)).1
  = if decide (status r = 401%Z) then logoutEffects else [].
Proof.
  unfold settle. destruct (validateStatus (status r)) eqn:Hv; simpl.
  - destruct (decide (status r = 401%Z)) as [Heq|]; [|done].
    rewrite Heq in Hv. discriminate.
  - by rewrite onRejected_spec.
Qed.

Lemma runEffects_logout w :
  runEffects logoutEffects w
  = {| localStorage := delete "user" (delete "auth_token" (localStorage w));
       location_href := "/login" |}.
Proof. reflexivity. Qed.

(** C1. For every response the service receives, the response interceptor
    performs the logout effects (remove 'auth_token', remove 'user', go to
    '/login') exactly when the status is 401. In particular a 403 triggers
    nothing and leaves the browser state as it was, while after a 401 both
    keys are gone and the location is '/login'. *)
Theorem response_interceptor_logout_iff_401 (r : Response) (w : Browser) :
  ((responseInterceptor (settle r)).1 = logoutEffects ↔ status r = 401%Z)
  ∧ (status r ≠ 401%Z →
     (responseInterceptor (settle r)).1 = [] ∧ (receive r w).1 = w)
  ∧ (status r = 403%Z →
     (responseInterceptor (settle r)).1 = [] ∧ (receive r w).1 = w)
  ∧ (status r = 401%Z →
     localStorage (receive r w).1 !! "auth_token" = None
     ∧ localStorage (receive r w).1 !! "user" = None
     ∧ location_href (receive r w).1 = "/login").
Proof.
  assert (Hfst : (receive r w).1
                 = runEffects (responseInterceptor (settle r)).1 w).
  { unfold receive. by destruct (responseInterceptor (settle r)). }
  assert (Hne : status r ≠ 401%Z →
     (responseInterceptor (settle r)).1 = [] ∧ (receive r w).1 = w).
  { intros Hs. rewrite Hfst, responseInterceptor_settle.
    destruct (decide (status r = 401%Z)); [done|].
    split; [done|]. by destruct w. }
  split_and!.
  - rewrite responseInterceptor_settle.
    destruct (decide (status r = 401%Z)); split; try done.
  - exact Hne.
  - intros Hs. apply Hne. rewrite Hs. done.
  - intros Hs. rewrite Hfst, responseInterceptor_settle.
    destruct (decide (status r = 401%Z)); [|done].
    rewrite runEffects_logout; simpl.
    rewrite lookup_delete_ne, lookup_delete_eq by done.
    by rewrite lookup_delete_eq.
Qed.

Lemma response_interceptor_witness_401 :
  localStorage (receive {| status := 401; body := "" |} Sample.loggedIn).1
    !! "auth_token" = None
  ∧ localStorage (receive {| status := 401; body := "" |} Sample.loggedIn).1
    !! "user" = None
  ∧ location_href
      (receive {| status := 401; body := "" |} Sample.loggedIn).1 = "/login".
Proof.
  apply (response_interceptor_logout_iff_401
           {| status := 401; body := "" |} Sample.loggedIn).
  reflexivity.
Defined.

Lemma truthy_str_true s : truthy_str s = true ↔ s ≠ "".
Proof. destruct s; simpl; split; (done || congruence). Qed.

(** C2, as written, fails when the stored token is the empty string: the
    key holds a value, yet no Authorization header is set (the written
    claim asks for the header "Bearer "). *)
Lemma request_interceptor_empty_token_counterexample :
  getItem "auth_token" Sample.emptyToken = Some ""
  ∧ headers (requestInterceptor Sample.emptyToken
               (request GET "/users/me" None)) !! "Authorization" = None
  ∧ headers (requestInterceptor Sample.emptyToken
               (request GET "/users/me" None)) !! "Authorization"
    ≠ Some ("Bearer " +:+ "").
Proof. split_and!; [reflexivity | reflexivity | discriminate]. Qed.

(** C2, amended. For every outgoing request: if localStorage holds a
    non-empty 'auth_token', the Authorization header is 'Bearer ' followed
    by the token and every other header is as before; if the key is absent
    or holds the empty string, the interceptor returns the request
    unchanged, so it adds no Authorization header. *)
Theorem request_interceptor_bearer (w : Browser) (config : RequestConfig) :
  (∀ token, getItem "auth_token" w = Some token → token ≠ "" →
     headers (requestInterceptor w config) !! "Authorization"
     = Some ("Bearer " +:+ token)
     ∧ ∀ k, k ≠ "Authorization" →
         headers (requestInterceptor w config) !! k = headers config !! k)
  ∧ (getItem "auth_token" w = None ∨ getItem "auth_token" w = Some "" →
     requestInterceptor w config = config).
Proof.
  unfold requestInterceptor. split.
  - intros token -> Hne. apply truthy_str_true in Hne. rewrite Hne. simpl.
    split; [apply lookup_insert_eq|].
    intros k Hk. by apply lookup_insert_ne.
  - by intros [-> | ->].
Qed.

Lemma request_interceptor_bearer_witness :
  headers (requestInterceptor Sample.loggedIn (request GET "/users/me" None))
    !! "Authorization" = Some "Bearer abc".
Proof.
  apply (proj1 (request_interceptor_bearer Sample.loggedIn
                  (request GET "/users/me" None)) "abc");
    [reflexivity | discriminate].
Defined.

Example receive_403_keeps_session :
  receive {| status := 403; body := "" |} Sample.loggedIn
  = (Sample.loggedIn,
     Rejected {| response := Some {| status := 403; body := "" |} |}).
Proof. reflexivity. Qed.

Example receive_200_keeps_session :
  receive {| status := 200; body := "" |} Sample.loggedIn
  = (Sample.loggedIn, Fulfilled {| status := 200; body := "" |}).
Proof. reflexivity. Qed.

Example network_error_keeps_session :
  onRejected {| response := None |} = [].
Proof. reflexivity. Qed.

End Interceptors.

(** ** The group-creation page: validation and submission *)

Section Validation.
Import JS Types Types.CreateGroupRequest CreateGroupPage.

Lemma truthy_true (s : jsstring) : truthy s = true ↔ s ≠ [].
Proof. destruct s; simpl; split; (done || congruence). Qed.

Lemma truthy_false (s : jsstring) : truthy s = false ↔ s = [].
Proof. destruct s; simpl; split; (done || congruence). Qed.

(** A conditional insertion is empty only when nothing was inserted. *)
Lemma insert_if_empty (b : bool) (k v : string) (e : gmap string string) :
  (if b then <[k := v]> e else e) = ∅ ↔ b = false ∧ e = ∅.
Proof.
  destruct b; split.
  - intros H. by apply insert_non_empty in H.
  - by intros [? _].
  - done.
  - by intros [_ ?].
Qed.

Lemma check_name_empty fd e :
  check_name fd e = ∅
  ↔ e = ∅ ∧ trim (name fd) ≠ [] ∧ 3 ≤ length (name fd).
Proof.
  unfold check_name.
  destruct (truthy (trim (name fd))) eqn:Ht; simpl.
  - apply truthy_true in Ht. rewrite insert_if_empty.
    rewrite bool_decide_eq_false. split; [intros [? ?] | intros (? & ? & ?)];
      split_and!; (done || lia).
  - apply truthy_false in Ht. split.
    + intros H. by apply insert_non_empty in H.
    + by intros (_ & ? & _).
Qed.

Lemma check_description_empty fd e :
  check_description fd e = ∅
  ↔ e = ∅ ∧ trim (description fd) ≠ [] ∧ 10 ≤ length (description fd).
Proof.
  unfold check_description.
  destruct (truthy (trim (description fd))) eqn:Ht; simpl.
  - apply truthy_true in Ht. rewrite insert_if_empty.
    rewrite bool_decide_eq_false. split; [intros [? ?] | intros (? & ? & ?)];
      split_and!; (done || lia).
  - apply truthy_false in Ht. split.
    + intros H. by apply insert_non_empty in H.
    + by intros (_ & ? & _).
Qed.

Lemma check_category_empty fd e :
  check_category fd e = ∅ ↔ e = ∅ ∧ category fd ≠ [].
Proof.
  unfold check_category. rewrite insert_if_empty, negb_false_iff, truthy_true.
  tauto.
Qed.

Lemma check_industry_empty fd e :
  check_industry fd e = ∅ ↔ e = ∅ ∧ industry fd ≠ [].
Proof.
  unfold check_industry. rewrite insert_if_empty, negb_false_iff, truthy_true.
  tauto.
Qed.

Lemma check_max_members_empty fd e :
  check_max_members fd e = ∅
  ↔ e = ∅ ∧ (2 ≤ max_members fd ≤ 1000)%Z.
Proof.
  unfold check_max_members.
  rewrite insert_if_empty, orb_false_iff, !bool_decide_eq_false.
  intuition lia.
Qed.

Lemma newErrors_empty fd :
  newErrors fd = ∅
  ↔ (trim (name fd) ≠ [] ∧ 3 ≤ length (name fd))
    ∧ (trim (description fd) ≠ [] ∧ 10 ≤ length (description fd))
    ∧ category fd ≠ []
    ∧ industry fd ≠ []
    ∧ (2 ≤ max_members fd ≤ 1000)%Z.
Proof.
  unfold newErrors.
  rewrite check_max_members_empty, check_industry_empty,
    check_category_empty, check_description_empty, check_name_empty.
  intuition.
Qed.

Lemma validateForm_result st :
  (validateForm st).2 = bool_decide (newErrors (formData st) = ∅).
Proof.
  unfold validateForm; simpl. apply bool_decide_ext, map_size_empty_iff.
Qed.

Lemma handleSubmit_effects outcome st :
  (handleSubmit outcome st).2
  = if (validateForm st).2
    then PreventDefault :: ApiCreateGroup (formData st)
           :: match outcome with
              | Created id => [Navigate ("/groups/" +:+ id)]
              | Failed _ => [ConsoleError]
              end
    else [PreventDefault].
Proof.
  unfold handleSubmit. destruct (validateForm st) as [st1 ok]; simpl.
  destruct ok; simpl; [by destruct outcome | done].
Qed.

(** C9. [validateForm] answers true exactly when: the trimmed name is not
    empty and the name has at least 3 code units; the trimmed description
    is not empty and the description has at least 10; category and
    industry are not empty; and [max_members] lies between 2 and 1000
    inclusive. When it answers false, [handleSubmit] makes no API call,
    however the call would have settled. *)
Theorem validateForm_iff_and_gates_submit (st : PageState) :
  ((validateForm st).2 = true
   ↔ (trim (name (formData st)) ≠ [] ∧ 3 ≤ length (name (formData st)))
     ∧ (trim (description (formData st)) ≠ []
        ∧ 10 ≤ length (description (formData st)))
     ∧ category (formData st) ≠ []
     ∧ industry (formData st) ≠ []
     ∧ (2 ≤ max_members (formData st) ≤ 1000)%Z)
  ∧ (∀ outcome, (validateForm st).2 = false →
       ∀ groupData, ApiCreateGroup groupData ∉ (handleSubmit outcome st).2).
Proof.
  split.
  - rewrite validateForm_result, bool_decide_eq_true. apply newErrors_empty.
  - intros outcome Hf groupData. rewrite handleSubmit_effects, Hf.
    rewrite list_elem_of_singleton. discriminate.
Qed.

Lemma validateForm_witness :
  ApiCreateGroup Sample.blankNameForm
  ∉ (handleSubmit (Created "g1") (Sample.page Sample.blankNameForm "")).2.
Proof.
  apply (proj2 (validateForm_iff_and_gates_submit
                  (Sample.page Sample.blankNameForm "")) (Created "g1")).
  vm_compute. reflexivity.
Defined.

Example validateForm_goodForm :
  (validateForm (Sample.page Sample.goodForm "")).2 = true.
Proof. vm_compute. reflexivity. Qed.

Example validateForm_blankName :
  newErrors Sample.blankNameForm = {["name" := "Group name is required"]}.
Proof. vm_compute. reflexivity. Qed.

Example handleSubmit_goodForm :
  (handleSubmit (Created "g7") (Sample.page Sample.goodForm "")).2
  = [PreventDefault; ApiCreateGroup Sample.goodForm; Navigate "/groups/g7"].
Proof. rewrite handleSubmit_effects, validateForm_goodForm. reflexivity. Qed.

End Validation.

(** ** The group-creation page: tags *)

Section Tags.
Import JS Types Types.CreateGroupRequest CreateGroupPage.

Lemma trimStart_nil_iff (s : jsstring) :
  trimStart s = [] ↔ Forall (λ c, is_white_space c = true) s.
Proof.
  induction s as [|c s IH]; simpl.
  - split; [constructor | done].
  - destruct (is_white_space c) eqn:Hc.
    + rewrite IH, Forall_cons. tauto.
    + split; [done|]. intros H. apply Forall_cons in H as [H _]. congruence.
Qed.

Lemma Forall_white_trimStart (s : jsstring) :
  Forall (λ c, is_white_space c = true) (trimStart s)
  ↔ Forall (λ c, is_white_space c = true) s.
Proof.
  induction s as [|c s IH]; simpl; [done|].
  destruct (is_white_space c) eqn:Hc; [|done].
  rewrite IH, Forall_cons. tauto.
Qed.

(** Trimming leaves nothing exactly when the string is blank. *)
Lemma trim_nil_iff (s : jsstring) :
  trim s = [] ↔ Forall (λ c, is_white_space c = true) s.
Proof.
  unfold trim, trimEnd.
  rewrite <-Forall_white_trimStart, <-Forall_reverse, <-trimStart_nil_iff.
  split; [|by intros ->].
  intros H. apply (inj reverse). by rewrite H.
Qed.

Lemma includes_true l x : includes l x = true ↔ x ∈ l.
Proof. unfold includes. apply bool_decide_eq_true. Qed.

Lemma includes_false l x : includes l x = false ↔ x ∉ l.
Proof. unfold includes. apply bool_decide_eq_false. Qed.

Lemma tags_setNewTag s st :
  tags (formData (setNewTag s st)) = tags (formData st).
Proof. reflexivity. Qed.

Lemma tags_removeTag tag st :
  tags (formData (removeTag tag st))
  = filter (λ t, t ≠ tag) (tags (formData st)).
Proof. reflexivity. Qed.

(** [addTag] fired on the state it was rendered from. *)
Lemma tags_addTag st :
  tags (formData (addTag st st))
  = if decide (trim (newTag st) ≠ [] ∧ trim (newTag st) ∉ tags (formData st))
    then tags (formData st) ++ [trim (newTag st)]
    else tags (formData st).
Proof.
  unfold addTag.
  destruct (truthy (trim (newTag st))) eqn:Ht; simpl.
  - apply truthy_true in Ht.
    destruct (includes (tags (formData st)) (trim (newTag st))) eqn:Hi; simpl.
    + apply includes_true in Hi. by rewrite decide_False by tauto.
    + apply includes_false in Hi. by rewrite decide_True by tauto.
  - apply truthy_false in Ht. by rewrite decide_False by tauto.
Qed.

Lemma addTag_unchanged st :
  trim (newTag st) = [] ∨ trim (newTag st) ∈ tags (formData st) →
  addTag st st = st.
Proof.
  unfold addTag. intros [Ht | Hin].
  - apply truthy_false in Ht. by rewrite Ht.
  - apply includes_true in Hin. rewrite Hin. by rewrite andb_false_r.
Qed.

Lemma handleTagEvent_NoDup st ev :
  NoDup (tags (formData st)) →
  NoDup (tags (formData (handleTagEvent st ev))).
Proof.
  intros Hnd. destruct ev as [s | | tag]; cbn [handleTagEvent].
  - by rewrite tags_setNewTag.
  - rewrite tags_addTag. case_decide as Hc; [|done].
    destruct Hc as [_ Hnotin].
    apply NoDup_app. split_and!; [done | | apply NoDup_singleton].
    intros x Hx Hx'. apply list_elem_of_singleton in Hx'. by subst.
  - rewrite tags_removeTag. by apply NoDup_filter.
Qed.

Lemma runTagEvents_NoDup evs st :
  NoDup (tags (formData st)) →
  NoDup (tags (formData (runTagEvents evs st))).
Proof.
  unfold runTagEvents. revert st.
  induction evs as [|ev evs IH]; intros st Hnd; simpl; [done|].
  by apply IH, handleTagEvent_NoDup.
Qed.


(** X21. As long as every tag event is handled by the handler of the
    render that shows the current state, the tag list never holds
    duplicates. [addTag] then appends the trimmed input when it is not
    empty and not yet in the list, and otherwise leaves the state as it
    is; [removeTag] removes every occurrence of its tag and nothing else;
    hence from a duplicate-free list every such sequence of typing, adding
    and removing ends in a duplicate-free list. *)
Theorem tags_never_duplicate (st : PageState) :
  (trim (newTag st) ≠ [] → trim (newTag st) ∉ tags (formData st) →
     tags (formData (addTag st st))
     = tags (formData st) ++ [trim (newTag st)])
  ∧ (trim (newTag st) = [] ∨ trim (newTag st) ∈ tags (formData st) →
     addTag st st = st)
  ∧ (∀ tag,
       (tag ∉ tags (formData (removeTag tag st)))
       ∧ (∀ t, t ≠ tag →
            (t ∈ tags (formData (removeTag tag st))
             ↔ t ∈ tags (formData st))))
  ∧ (NoDup (tags (formData st)) →
     ∀ evs, NoDup (tags (formData (runTagEvents evs st)))).
Proof.
  split_and!.
  - intros Hne Hnotin. rewrite tags_addTag. by rewrite decide_True.
  - apply addTag_unchanged.
  - intros tag. rewrite tags_removeTag. split.
    + rewrite list_elem_of_filter. tauto.
    + intros t Hne. rewrite list_elem_of_filter. tauto.
  - intros Hnd evs. by apply runTagEvents_NoDup.
Qed.

Lemma tags_never_duplicate_witness :
  NoDup (tags (formData
    (runTagEvents
       [TypeTag (of_ascii " steel "); AddTag;
        TypeTag (of_ascii "copper"); AddTag;
        RemoveTag (of_ascii "steel");
        TypeTag (of_ascii "copper "); AddTag]
       (Sample.page Sample.goodForm "")))).
Proof.
  apply (proj2 (proj2 (proj2
    (tags_never_duplicate (Sample.page Sample.goodForm ""))))).
  simpl. apply NoDup_singleton.
Defined.

Example tag_editor_run :
  tags (formData
    (runTagEvents
       [TypeTag (of_ascii " steel "); AddTag;
        TypeTag (of_ascii "copper"); AddTag;
        RemoveTag (of_ascii "steel");
        TypeTag (of_ascii "copper "); AddTag]
       (Sample.page Sample.goodForm "")))
  = [of_ascii "copper"].
Proof. vm_compute. reflexivity. Qed.

End Tags.

(** ** The declared types *)

Section DeclaredTypes.
Import JS Types.

Lemma Privacy_literal_inj : Inj (=) (=) Privacy_literal.
Proof. intros [] []; simpl; congruence. Qed.

Lemma Privacy_literal_range s :
  (∃ p, Privacy_literal p = s) ↔ s ∈ ["public"; "private"; "invite_only"].
Proof.
  rewrite !elem_of_cons, elem_of_nil. split.
  - intros [[] <-]; simpl; tauto.
  - intros [-> | [-> | [-> | []]]];
      [by exists public | by exists private | by exists invite_only].
Qed.

(** C7. A group's privacy is exactly one of 'public', 'private',
    'invite_only' (the three literals are pairwise distinct), and the
    values offered by the Privacy select of the creation form are exactly
    these three. *)
Theorem privacy_three_values :
  (∀ g : Group.t,
     Privacy_literal (Group.privacy g)
     ∈ ["public"; "private"; "invite_only"])
  ∧ (∀ s, s ∈ ["public"; "private"; "invite_only"] →
       ∃ p, Privacy_literal p = s)
  ∧ Inj (=) (=) Privacy_literal
  ∧ CreateGroupPage.privacyMenuItems.*1
    = Privacy_literal <$> [public; private; invite_only]
  ∧ (∀ s, s ∈ CreateGroupPage.privacyMenuItems.*1
          ↔ ∃ p, Privacy_literal p = s).
Proof.
  split_and!.
  - intros g. apply Privacy_literal_range. eauto.
  - intros s. apply Privacy_literal_range.
  - apply Privacy_literal_inj.
  - reflexivity.
  - intros s. by rewrite Privacy_literal_range.
Qed.

Lemma privacy_three_values_witness : ∃ p, Privacy_literal p = "private".
Proof.
  apply (proj1 (proj2 privacy_three_values) "private").
  rewrite !elem_of_cons. tauto.
Defined.

Lemma lookup_with_optional_ne k v (o : gmap string value) k' :
  k ≠ k' → with_optional k v o !! k' = o !! k'.
Proof. intros Hne. destruct v; simpl; [by apply lookup_insert_ne | done]. Qed.


Lemma Invitation_status_field i :
  Invitation.to_object i !! "status"
  = Some (VStr (InvitationStatus_literal (Invitation.status i))).
Proof.
  unfold Invitation.to_object.
  rewrite lookup_with_optional_ne by done. by simplify_map_eq.
Qed.

Lemma InvitationStatus_literal_inj : Inj (=) (=) InvitationStatus_literal.
Proof. intros [] []; simpl; congruence. Qed.

(** C3, as written, fails: an invitation may be 'pending', which is none
    of 'active', 'deactivated', 'expired', 'exhausted'. *)
Lemma invitation_status_counterexample :
  Invitation.to_object Sample.invitation !! "status" = Some (VStr "pending")
  ∧ "pending" ∉ ["active"; "deactivated"; "expired"; "exhausted"].
Proof.
  split; [reflexivity|].
  rewrite !elem_of_cons, elem_of_nil. intros [H|[H|[H|[H|[]]]]]; discriminate.
Qed.

(** C3, amended. Every invitation's status field holds exactly one of the
    four values 'pending', 'accepted', 'declined', 'expired', and each of
    them occurs. *)
Theorem invitation_status_four_values :
  (∀ i : Invitation.t,
     ∃ s, Invitation.to_object i !! "status" = Some (VStr s)
          ∧ s ∈ ["pending"; "accepted"; "declined"; "expired"])
  ∧ (∀ s, s ∈ ["pending"; "accepted"; "declined"; "expired"] →
       ∃ st, InvitationStatus_literal st = s)
  ∧ Inj (=) (=) InvitationStatus_literal.
Proof.
  split_and!.
  - intros i. eexists. split; [apply Invitation_status_field|].
    rewrite !elem_of_cons. destruct (Invitation.status i); simpl; tauto.
  - intros s. rewrite !elem_of_cons, elem_of_nil.
    intros [-> | [-> | [-> | [-> | []]]]];
      [by exists pending | by exists accepted
      | by exists declined | by exists expired].
  - apply InvitationStatus_literal_inj.
Qed.

Lemma invitation_status_four_values_witness :
  ∃ st, InvitationStatus_literal st = "accepted".
Proof.
  apply (proj1 (proj2 invitation_status_four_values) "accepted").
  rewrite !elem_of_cons. tauto.
Defined.












End DeclaredTypes.

(** ** The invitation endpoints *)

Section InvitationEndpoints.
Import JS Types Api.

Lemma string_app_cons c (s t : string) :
  String c s +:+ t = String c (s +:+ t).
Proof. reflexivity. Qed.

Lemma string_length_app (s t : string) :
  String.length (s +:+ t) = String.length s + String.length t.
Proof.
  induction s as [|c s IH]; [done|].
  rewrite string_app_cons. simpl. by rewrite IH.
Qed.

Lemma string_app_assoc (s t u : string) :
  (s +:+ t) +:+ u = s +:+ (t +:+ u).
Proof.
  induction s as [|c s IH]; [done|].
  rewrite !string_app_cons. by rewrite IH.
Qed.

(** Two strings that agree have the same suffix of any given length. *)
Lemma string_app_suffix_eq (s t a b : string) :
  String.length a = String.length b → s +:+ a = t +:+ b → a = b.
Proof.
  revert t. induction s as [|c s IH]; intros [|c' t] Hlen Heq;
    unfold String.append in Heq; fold String.append in Heq.
  - done.
  - subst a. simpl in Hlen. rewrite string_length_app in Hlen. lia.
  - subst b. simpl in Hlen. rewrite string_length_app in Hlen. lia.
  - injection Heq as _ Heq. by apply (IH t).
Qed.

Lemma accept_is_not_redeem invitationId token :
  "/invitations/" +:+ invitationId +:+ "/accept" ≠ redeemPath token.
Proof.
  unfold redeemPath. intros Heq. apply (inj _) in Heq.
  apply string_app_suffix_eq in Heq; [discriminate | reflexivity].
Qed.

Lemma decline_is_not_redeem invitationId token :
  "/invitations/" +:+ invitationId +:+ "/decline" ≠ redeemPath token.
Proof.
  unfold redeemPath. intros Heq. apply (inj _) in Heq.
  change "/decline" with ("/declin" +:+ "e") in Heq.
  change "/redeem" with ("/redee" +:+ "m") in Heq.
  rewrite <-!string_app_assoc in Heq.
  apply string_app_suffix_eq in Heq; [discriminate | reflexivity].
Qed.

(** C5, as written, fails: the request that redeems an invitation goes to
    '/invitations/{invitationId}/accept', which is of the form
    '/invitations/{token}/redeem' for no token. *)
Lemma invitation_redeem_counterexample :
  method (invitationRequest (AcceptInvitation "inv1")) = POST
  ∧ url (invitationRequest (AcceptInvitation "inv1"))
    = "/invitations/inv1/accept"
  ∧ ¬ ∃ token,
        url (invitationRequest (AcceptInvitation "inv1")) = redeemPath token.
Proof.
  split_and!; [reflexivity | reflexivity |].
  intros [token Heq]. by apply accept_is_not_redeem in Heq.
Qed.

Lemma is_plain_char_not_cut c : is_plain_char c = true → is_cut c = false.
Proof.
  destruct c as [[] [] [] [] [] [] [] []]; vm_compute; congruence.
Qed.

(** A plain id is carried to the server as it is. *)
Lemma wirePath_plain_app (s t : string) :
  plain_id s = true → wirePath (s +:+ t) = s +:+ wirePath t.
Proof.
  induction s as [|c s IH]; [done|]. simpl.
  intros [Hc Hs]%andb_true_iff.
  rewrite !string_app_cons. simpl.
  by rewrite (is_plain_char_not_cut c Hc), IH.
Qed.

Lemma string_app_nil_r (s : string) : s +:+ "" = s.
Proof.
  induction s as [|c s IH]; [done|]. by rewrite string_app_cons, IH.
Qed.

Lemma wirePath_invitation_url (i suffix : string) :
  plain_id i = true →
  wirePath ("/invitations/" +:+ i +:+ suffix)
  = "/invitations/" +:+ i +:+ wirePath suffix.
Proof.
  intros Hi. rewrite <-(wirePath_plain_app i suffix Hi). reflexivity.
Qed.

(** With an id that is not plain the URL can reach another path than the
    one built: a '#' cuts the '/accept' off. *)
Example accept_cut_by_fragment :
  url (acceptInvitation "tok/redeem#") = "/invitations/tok/redeem#/accept"
  ∧ wirePath (url (acceptInvitation "tok/redeem#")) = redeemPath "tok".
Proof. split; reflexivity. Qed.

(** C5, amended. The client has no validation call, and redemption is
    acceptance by invitation id: its invitation operations build GET
    /invitations, GET /invitations/sent, POST /invitations, POST
    '/invitations/' + invitationId + '/accept', POST '/invitations/' +
    invitationId + '/decline' and DELETE '/invitations/' + invitationId.
    For an invitation id made only of letters, digits, '-' and '_' the URL
    reaches the server as built, and the request is then neither a POST of
    '/invitations/{token}/redeem' nor a GET of
    '/invitations/validate/{token}', for any token. *)
Theorem invitation_endpoints (op : InvitationOp) :
  let r := invitationRequest op in
  ((method r = GET ∧ url r = "/invitations")
   ∨ (method r = GET ∧ url r = "/invitations/sent")
   ∨ (method r = POST ∧ url r = "/invitations")
   ∨ (∃ i, op = AcceptInvitation i ∧ method r = POST
           ∧ url r = "/invitations/" +:+ i +:+ "/accept")
   ∨ (∃ i, op = DeclineInvitation i ∧ method r = POST
           ∧ url r = "/invitations/" +:+ i +:+ "/decline")
   ∨ (∃ i, op = CancelInvitation i ∧ method r = DELETE
           ∧ url r = "/invitations/" +:+ i))
  ∧ (plain_op op = true →
     wirePath (url r) = url r
     ∧ (∀ token, ¬ (method r = POST ∧ wirePath (url r) = redeemPath token))
     ∧ (∀ token,
          ¬ (method r = GET ∧ wirePath (url r) = validatePath token))).
Proof.
  destruct op as [ | | d | i | i | i ]; cbv zeta; split.
  - by left.
  - intros _. split_and!; [done | |];
      intros token [Hm Hu]; discriminate.
  - right; by left.
  - intros _. split_and!; [done | |];
      intros token [Hm Hu]; discriminate.
  - right; right; by left.
  - intros _. split_and!; [done | |];
      intros token [Hm Hu]; discriminate.
  - right; right; right; left. by exists i.
  - intros Hi. simpl in Hi.
    assert (Hw : wirePath (url (invitationRequest (AcceptInvitation i)))
                 = url (invitationRequest (AcceptInvitation i))).
    { change (url (invitationRequest (AcceptInvitation i)))
        with ("/invitations/" +:+ i +:+ "/accept").
      by rewrite wirePath_invitation_url. }
    rewrite Hw. split_and!; [done | |]; intros token [Hm Hu].
    + by apply accept_is_not_redeem in Hu.
    + discriminate Hm.
  - right; right; right; right; left. by exists i.
  - intros Hi. simpl in Hi.
    assert (Hw : wirePath (url (invitationRequest (DeclineInvitation i)))
                 = url (invitationRequest (DeclineInvitation i))).
    { change (url (invitationRequest (DeclineInvitation i)))
        with ("/invitations/" +:+ i +:+ "/decline").
      by rewrite wirePath_invitation_url. }
    rewrite Hw. split_and!; [done | |]; intros token [Hm Hu].
    + by apply decline_is_not_redeem in Hu.
    + discriminate Hm.
  - right; right; right; right; right. by exists i.
  - intros Hi. simpl in Hi.
    assert (Hw : wirePath (url (invitationRequest (CancelInvitation i)))
                 = url (invitationRequest (CancelInvitation i))).
    { change (url (invitationRequest (CancelInvitation i)))
        with ("/invitations/" +:+ i).
      rewrite <-(string_app_nil_r i) at 1.
      rewrite wirePath_invitation_url by done.
      change (wirePath "") with "". by rewrite string_app_nil_r. }
    rewrite Hw. split_and!; [done | |]; intros token [Hm Hu];
      discriminate Hm.
Qed.

Lemma invitation_endpoints_witness :
  wirePath (url (invitationRequest (AcceptInvitation "inv1")))
  = url (invitationRequest (AcceptInvitation "inv1")).
Proof.
  apply (proj2 (invitation_endpoints (AcceptInvitation "inv1"))).
  reflexivity.
Defined.

End InvitationEndpoints.

(** ** The group aggregate *)

Section Capacity.
Import GroupAggregate.







(** A full group takes no further member. *)
Lemma add_member_full user role g :
  max_members g ≤ current_member_count g →
  ∃ e, add_member user role g = inl e.
Proof.
  intros Hfull. unfold add_member.
  case_decide; [by eexists|]. rewrite decide_True by done. by eexists.
Qed.






(** The scenario of a group of two: the owner and one member fill it, a
    third join is refused. *)
Example third_join_group_full :
  add_member "u3" member Sample.steelGroup = inl GroupFull.
Proof. reflexivity. Qed.

End Capacity.

(** ** Regular expressions *)

Section RegexFacts.
Import JS Regex.

Lemma matches_seq_inv r1 r2 s :
  matches (Seq r1 r2) s
  ↔ ∃ s1 s2, s = s1 ++ s2 ∧ matches r1 s1 ∧ matches r2 s2.
Proof.
  split.
  - inversion 1; subst; eauto.
  - intros (s1 & s2 & -> & H1 & H2). by constructor.
Qed.

Lemma matches_alt_inv r1 r2 s :
  matches (Alt r1 r2) s ↔ matches r1 s ∨ matches r2 s.
Proof.
  split.
  - inversion 1; subst; eauto.
  - intros [H|H]; [by apply matches_alt_l | by apply matches_alt_r].
Qed.

Lemma matches_class_inv p s :
  matches (Class p) s ↔ ∃ c, s = [c] ∧ p c = true.
Proof.
  split.
  - inversion 1; subst; eauto.
  - intros (c & -> & Hc). by constructor.
Qed.

Lemma matches_void_inv s : ¬ matches Void s.
Proof. inversion 1. Qed.

Lemma matches_eps_inv s : matches Eps s ↔ s = [].
Proof. split; [by inversion 1 | intros ->; constructor]. Qed.

(** A non-empty match of [Star r] starts with a non-empty match of [r]. *)
Lemma matches_star_cons r c s :
  matches (Star r) (c :: s)
  ↔ ∃ s1 s2, s = s1 ++ s2 ∧ matches r (c :: s1) ∧ matches (Star r) s2.
Proof.
  split.
  - intros H. remember (Star r) as r' eqn:Hr. remember (c :: s) as s' eqn:Hs.
    induction H as [ | | | | | | r0 s1 s2 H1 _ H2 IH2 ]; try discriminate.
    injection Hr as ->.
    destruct s1 as [|c1 s1]; simpl in Hs.
    + by apply IH2.
    + injection Hs as -> <-. eauto.
  - intros (s1 & s2 & -> & H1 & H2).
    by apply (matches_star_app r (c :: s1) s2).
Qed.

Lemma nullable_spec r : nullable r = true ↔ matches r [].
Proof.
  induction r as [ | | p | r1 IH1 r2 IH2 | r1 IH1 r2 IH2 | r IH ]; simpl.
  - split; [done | by intros ?%matches_void_inv].
  - split; [constructor | done].
  - split; [done|]. by intros (c & ? & _)%matches_class_inv.
  - rewrite andb_true_iff, IH1, IH2, matches_seq_inv. split.
    + intros [H1 H2]. by exists [], [].
    + intros (s1 & s2 & Hs & H1 & H2).
      symmetry in Hs. apply app_eq_nil in Hs as [-> ->]. done.
  - by rewrite orb_true_iff, IH1, IH2, matches_alt_inv.
  - split; [constructor | done].
Qed.

Lemma deriv_spec c r s : matches (deriv c r) s ↔ matches r (c :: s).
Proof.
  revert s.
  induction r as [ | | p | r1 IH1 r2 IH2 | r1 IH1 r2 IH2 | r IH ];
    intros s; simpl.
  - split; by intros ?%matches_void_inv.
  - split; [by intros ?%matches_void_inv | by intros ?%matches_eps_inv].
  - rewrite matches_class_inv. destruct (p c) eqn:Hp.
    + rewrite matches_eps_inv. split.
      * intros ->. eauto.
      * by intros (c' & [= -> ->] & _).
    + split; [by intros ?%matches_void_inv|].
      intros (c' & [= -> ->] & Hc). congruence.
  - assert (Hcons : matches (Seq (deriv c r1) r2) s
                    ↔ ∃ s1 s2, s = s1 ++ s2 ∧ matches r1 (c :: s1)
                               ∧ matches r2 s2).
    { rewrite matches_seq_inv. by setoid_rewrite IH1. }
    rewrite (matches_seq_inv r1 r2 (c :: s)).
    destruct (nullable r1) eqn:Hn.
    + apply nullable_spec in Hn.
      rewrite matches_alt_inv, Hcons, IH2. split.
      * intros [(s1 & s2 & -> & H1 & H2) | H2].
        -- by exists (c :: s1), s2.
        -- by exists [], (c :: s).
      * intros ([|c1 s1] & s2 & Hs & H1 & H2); simpl in Hs.
        -- subst s2. by right.
        -- injection Hs as -> ->. left. eauto.
    + rewrite Hcons. split.
      * intros (s1 & s2 & -> & H1 & H2). by exists (c :: s1), s2.
      * intros ([|c1 s1] & s2 & Hs & H1 & H2); simpl in Hs.
        -- apply nullable_spec in H1. congruence.
        -- injection Hs as -> ->. eauto.
  - by rewrite !matches_alt_inv, IH1, IH2.
  - rewrite matches_star_cons, matches_seq_inv. by setoid_rewrite IH.
Qed.

Lemma matchb_spec r s : matchb r s = true ↔ matches r s.
Proof.
  revert r. induction s as [|c s IH]; intros r; simpl.
  - apply nullable_spec.
  - by rewrite IH, deriv_spec.
Qed.

Lemma matches_star_any s : matches (Star Any) s.
Proof.
  induction s as [|c s IH]; [constructor|].
  apply (matches_star_app Any [c] s); [by constructor | done].
Qed.

(** [test] finds a match anywhere in the string. *)
Lemma test_spec r s :
  test r s = true ↔ ∃ pre m post, s = pre ++ m ++ post ∧ matches r m.
Proof.
  unfold test. rewrite matchb_spec, matches_seq_inv. split.
  - intros (pre & rest & -> & _ & (m & post & -> & Hm & _)%matches_seq_inv).
    eauto.
  - intros (pre & m & post & -> & Hm). exists pre, (m ++ post).
    split_and!; [done | apply matches_star_any|].
    apply matches_seq; [done | apply matches_star_any].
Qed.

Lemma matches_star_class p s :
  matches (Star (Class p)) s ↔ Forall (λ c, p c = true) s.
Proof.
  induction s as [|c s IH].
  - split; [constructor | constructor].
  - rewrite matches_star_cons, Forall_cons. split.
    + intros (s1 & s2 & -> & (c' & [= <- ->] & Hc)%matches_class_inv & H2).
      split; [done|]. by apply IH.
    + intros [Hc Hs]. exists [], s.
      split_and!; [done | by constructor | by apply IH].
Qed.

(** [p+] matches the non-empty strings made of [p] characters. *)
Lemma matches_plus_class p s :
  matches (Plus (Class p)) s ↔ s ≠ [] ∧ Forall (λ c, p c = true) s.
Proof.
  unfold Plus. rewrite matches_seq_inv. split.
  - intros (s1 & s2 & -> & (c & -> & Hc)%matches_class_inv
            & Hs%matches_star_class).
    split; [done|]. by constructor.
  - intros [Hne Hall]. destruct s as [|c s]; [done|].
    apply Forall_cons in Hall as [Hc Hs].
    exists [c], s. split_and!; [done | by constructor|].
    by apply matches_star_class.
Qed.

Lemma matches_chr c s : matches (Chr c) s ↔ s = [c].
Proof.
  unfold Chr. rewrite matches_class_inv. split.
  - intros (c' & -> & Hc). apply bool_decide_eq_true in Hc. by subst.
  - intros ->. exists c. by rewrite bool_decide_eq_true.
Qed.

End RegexFacts.

(** ** The auth reducer along runs *)

Section AuthReducerRuns.
Import AuthContext AuthProvider.

Lemma session_consistent_initial : session_consistent initialState.
Proof.
  split; simpl.
  - split; [done | by intros [? ?]].
  - by intros [? ?].
Qed.

Lemma session_consistent_step s a :
  session_consistent s → session_consistent (authReducer s a).
Proof.
  intros [Hiff Herr]. destruct a; simpl; split; simpl;
    try (split; [done | by intros [? ?]]);
    try (by intros [? ?]);
    try (split; [eauto | done]);
    try done; eauto.
Qed.

(** X1. Along every run of the reducer from the initial state, the session
    is authenticated exactly when a user is present, and whenever an error
    is recorded the session is unauthenticated, has no user and is not
    loading. *)
Theorem authReducer_run_session_consistent actions :
  let s := foldl authReducer initialState actions in
  (isAuthenticated s = true ↔ is_Some (user s))
  ∧ (is_Some (error s) →
     isAuthenticated s = false ∧ user s = None ∧ isLoading s = false).
Proof.
  simpl. change (session_consistent (foldl authReducer initialState actions)).
  induction actions as [|a actions IH] using rev_ind.
  - apply session_consistent_initial.
  - rewrite foldl_app. simpl. by apply session_consistent_step.
Qed.

Lemma authReducer_run_session_consistent_witness :
  isAuthenticated
    (foldl authReducer initialState
       [AUTH_START; AUTH_SUCCESS Sample.alice; AUTH_FAILURE "expired"])
  = false.
Proof.
  apply (proj2 (authReducer_run_session_consistent
                  [AUTH_START; AUTH_SUCCESS Sample.alice;
                   AUTH_FAILURE "expired"])).
  simpl. eauto.
Defined.

End AuthReducerRuns.

(** ** The interceptors and the invitation URLs, continued *)

Section ApiMore.
Import JS Types Api.

Lemma runEffects_onRejected_other error w k :
  k ≠ "auth_token" → k ≠ "user" →
  localStorage (runEffects (onRejected error) w) !! k = localStorage w !! k.
Proof.
  intros H1 H2. rewrite onRejected_spec.
  destruct (response error) as [r|]; [|done].
  case_decide; [|done]. rewrite runEffects_logout; simpl.
  by rewrite !lookup_delete_ne.
Qed.

Lemma runEffects_onRejected_not_401 error w :
  status <$> response error ≠ Some 401%Z →
  runEffects (onRejected error) w = w.
Proof.
  intros Hs. unfold onRejected. rewrite bool_decide_eq_false_2 by done.
  by destruct w.
Qed.

Lemma runEffects_onRejected_401 error w :
  status <$> response error = Some 401%Z →
  runEffects (onRejected error) w
  = {| localStorage := delete "user" (delete "auth_token" (localStorage w));
       location_href := "/login" |}.
Proof.
  intros Hs. unfold onRejected. by rewrite bool_decide_eq_true_2.
Qed.

(** X2. Whatever the response, the response interceptor leaves every
    storage key other than 'auth_token' and 'user' as it was (a stored
    'refresh_token' survives a 401), and it never changes how the call
    settles: a 2xx response is passed on, any other one is re-rejected
    with that response. *)
Theorem response_interceptor_keeps_other_keys (r : Response) (w : Browser) :
  (∀ k, k ≠ "auth_token" → k ≠ "user" →
     localStorage (receive r w).1 !! k = localStorage w !! k)
  ∧ (receive r w).2 = settle r
  ∧ ((200 ≤ status r < 300)%Z → (receive r w).2 = Fulfilled r)
  ∧ (¬ (200 ≤ status r < 300)%Z →
     (receive r w).2 = Rejected {| response := Some r |}).
Proof.
  assert (Hrecv : receive r w
                  = (runEffects (responseInterceptor (settle r)).1 w,
                     settle r)).
  { unfold receive. by destruct (settle r). }
  assert (Hv : validateStatus (status r) = true ↔ (200 ≤ status r < 300)%Z).
  { unfold validateStatus.
    rewrite andb_true_iff, !bool_decide_eq_true. lia. }
  rewrite Hrecv. simpl. split_and!.
  - intros k H1 H2. unfold settle.
    destruct (validateStatus (status r)); simpl; [done|].
    by apply runEffects_onRejected_other.
  - done.
  - intros Hs%Hv. unfold settle. by rewrite Hs.
  - intros Hs. unfold settle.
    destruct (validateStatus (status r)); [|done].
    destruct Hs. by apply Hv.
Qed.

Lemma response_interceptor_keeps_other_keys_witness :
  localStorage (receive {| status := 401; body := "" |} Sample.loggedIn).1
    !! "refresh_token" = Some "r".
Proof.
  rewrite (proj1 (response_interceptor_keeps_other_keys
                    {| status := 401; body := "" |} Sample.loggedIn)
             "refresh_token"); [reflexivity | discriminate | discriminate].
Defined.

Lemma string_app_inv_tail (s t a : string) : s +:+ a = t +:+ a → s = t.
Proof.
  revert t. induction s as [|c s IH]; intros [|c' t] Heq;
    unfold String.append in Heq; fold String.append in Heq.
  - done.
  - apply (f_equal String.length) in Heq. simpl in Heq.
    rewrite string_length_app in Heq. lia.
  - apply (f_equal String.length) in Heq. simpl in Heq.
    rewrite string_length_app in Heq. lia.
  - injection Heq as -> Heq. f_equal. by apply IH.
Qed.

Lemma accept_is_not_decline i j :
  "/invitations/" +:+ i +:+ "/accept" ≠ "/invitations/" +:+ j +:+ "/decline".
Proof.
  intros Heq. apply (inj _) in Heq.
  change "/accept" with ("/accep" +:+ "t") in Heq.
  change "/decline" with ("/declin" +:+ "e") in Heq.
  rewrite <-!string_app_assoc in Heq.
  apply string_app_suffix_eq in Heq; [discriminate | reflexivity].
Qed.

Lemma wirePath_accept i :
  plain_id i = true →
  wirePath (url (acceptInvitation i)) = "/invitations/" +:+ i +:+ "/accept".
Proof.
  intros Hi.
  change (url (acceptInvitation i))
    with ("/invitations/" +:+ i +:+ "/accept").
  by rewrite wirePath_invitation_url.
Qed.

Lemma wirePath_decline i :
  plain_id i = true →
  wirePath (url (declineInvitation i))
  = "/invitations/" +:+ i +:+ "/decline".
Proof.
  intros Hi.
  change (url (declineInvitation i))
    with ("/invitations/" +:+ i +:+ "/decline").
  by rewrite wirePath_invitation_url.
Qed.

Lemma wirePath_cancel i :
  plain_id i = true →
  wirePath (url (cancelInvitation i)) = "/invitations/" +:+ i.
Proof.
  intros Hi.
  change (url (cancelInvitation i)) with ("/invitations/" +:+ i).
  rewrite <-(string_app_nil_r i) at 1.
  rewrite wirePath_invitation_url by done.
  change (wirePath "") with "". by rewrite string_app_nil_r.
Qed.

(** X3. For invitation ids made only of letters, digits, '-' and '_', for
    which the URL reaches the server as built, invitation requests do not
    collide: two different ids give two different paths for accepting, for
    declining and for cancelling, the path of an accept request is never
    that of a decline request, and an accept request is never a cancel
    request. *)
Theorem invitation_urls_distinct (i j : string) :
  plain_id i = true → plain_id j = true →
  (i ≠ j →
   wirePath (url (acceptInvitation i)) ≠ wirePath (url (acceptInvitation j))
   ∧ wirePath (url (declineInvitation i))
     ≠ wirePath (url (declineInvitation j))
   ∧ wirePath (url (cancelInvitation i))
     ≠ wirePath (url (cancelInvitation j)))
  ∧ wirePath (url (acceptInvitation i))
    ≠ wirePath (url (declineInvitation j))
  ∧ (method (acceptInvitation i), wirePath (url (acceptInvitation i)))
    ≠ (method (cancelInvitation j), wirePath (url (cancelInvitation j))).
Proof.
  intros Hi Hj.
  rewrite !wirePath_accept, !wirePath_decline, !wirePath_cancel by done.
  split_and!.
  - intros Hne. split_and!; intros Heq%(inj _); apply Hne.
    + by apply string_app_inv_tail in Heq.
    + by apply string_app_inv_tail in Heq.
    + done.
  - apply accept_is_not_decline.
  - discriminate.
Qed.

Lemma invitation_urls_distinct_witness :
  wirePath (url (acceptInvitation "inv1"))
  ≠ wirePath (url (acceptInvitation "inv2")).
Proof.
  apply (proj1 (invitation_urls_distinct "inv1" "inv2"
                  ltac:(reflexivity) ltac:(reflexivity))).
  discriminate.
Defined.

End ApiMore.

(** ** The group-creation page, continued *)

Section CreateGroupMore.
Import JS Types Types.CreateGroupRequest CreateGroupPage.

Lemma lookup_check_name fd e k :
  check_name fd e !! k
  = if decide (k = "name") then
      if decide (trim (name fd) = []) then Some "Group name is required"
      else if decide (length (name fd) < 3)
      then Some "Group name must be at least 3 characters"
      else e !! k
    else e !! k.
Proof.
  unfold check_name.
  destruct (truthy (trim (name fd))) eqn:Ht; simpl;
    [apply truthy_true in Ht | apply truthy_false in Ht];
    repeat (case_decide || case_bool_decide); subst;
    rewrite ?lookup_insert_eq, ?lookup_insert_ne by done; done.
Qed.

Lemma lookup_check_description fd e k :
  check_description fd e !! k
  = if decide (k = "description") then
      if decide (trim (description fd) = [])
      then Some "Description is required"
      else if decide (length (description fd) < 10)
      then Some "Description must be at least 10 characters"
      else e !! k
    else e !! k.
Proof.
  unfold check_description.
  destruct (truthy (trim (description fd))) eqn:Ht; simpl;
    [apply truthy_true in Ht | apply truthy_false in Ht];
    repeat (case_decide || case_bool_decide); subst;
    rewrite ?lookup_insert_eq, ?lookup_insert_ne by done; done.
Qed.

Lemma lookup_check_category fd e k :
  check_category fd e !! k
  = if decide (k = "category") then
      if decide (category fd = []) then Some "Category is required"
      else e !! k
    else e !! k.
Proof.
  unfold check_category.
  destruct (truthy (category fd)) eqn:Ht; simpl;
    [apply truthy_true in Ht | apply truthy_false in Ht];
    repeat case_decide; subst;
    rewrite ?lookup_insert_eq, ?lookup_insert_ne by done; done.
Qed.

Lemma lookup_check_industry fd e k :
  check_industry fd e !! k
  = if decide (k = "industry") then
      if decide (industry fd = []) then Some "Industry is required"
      else e !! k
    else e !! k.
Proof.
  unfold check_industry.
  destruct (truthy (industry fd)) eqn:Ht; simpl;
    [apply truthy_true in Ht | apply truthy_false in Ht];
    repeat case_decide; subst;
    rewrite ?lookup_insert_eq, ?lookup_insert_ne by done; done.
Qed.

Lemma lookup_check_max_members fd e k :
  check_max_members fd e !! k
  = if decide (k = "max_members") then
      if decide (2 ≤ max_members fd ≤ 1000)%Z then e !! k
      else Some "Maximum members must be between 2 and 1000"
    else e !! k.
Proof.
  unfold check_max_members.
  destruct (bool_decide (max_members fd < 2)%Z
            || bool_decide (max_members fd > 1000)%Z) eqn:Hb;
    [apply orb_true_iff in Hb; rewrite !bool_decide_eq_true in Hb
    |apply orb_false_iff in Hb; rewrite !bool_decide_eq_false in Hb];
    repeat case_decide; subst;
    rewrite ?lookup_insert_eq, ?lookup_insert_ne by done;
    first [done | lia].
Qed.

(** X4. Validation reports each field on its own: the entry of
    [newErrors] under 'name' (and likewise 'description', 'category',
    'industry', 'max_members') depends on that field alone, a blank name or
    description is reported as required rather than as too short, and no
    other key is ever set. *)
Theorem newErrors_per_field (fd : CreateGroupRequest.t) :
  newErrors fd !! "name"
  = (if decide (trim (name fd) = []) then Some "Group name is required"
     else if decide (length (name fd) < 3)
     then Some "Group name must be at least 3 characters"
     else None)
  ∧ newErrors fd !! "description"
    = (if decide (trim (description fd) = [])
       then Some "Description is required"
       else if decide (length (description fd) < 10)
       then Some "Description must be at least 10 characters"
       else None)
  ∧ newErrors fd !! "category"
    = (if decide (category fd = []) then Some "Category is required"
       else None)
  ∧ newErrors fd !! "industry"
    = (if decide (industry fd = []) then Some "Industry is required"
       else None)
  ∧ newErrors fd !! "max_members"
    = (if decide (2 ≤ max_members fd ≤ 1000)%Z then None
       else Some "Maximum members must be between 2 and 1000")
  ∧ (∀ k, is_Some (newErrors fd !! k) →
       k ∈ ["name"; "description"; "category"; "industry"; "max_members"]).
Proof.
  unfold newErrors.
  split_and!;
    try (rewrite lookup_check_max_members, lookup_check_industry,
           lookup_check_category, lookup_check_description,
           lookup_check_name, lookup_empty;
         repeat case_decide; done).
  intros k. rewrite !elem_of_cons.
  rewrite lookup_check_max_members, lookup_check_industry,
    lookup_check_category, lookup_check_description,
    lookup_check_name, lookup_empty.
  repeat case_decide; try tauto; by intros [? ?].
Qed.

Lemma newErrors_per_field_witness :
  "name" ∈ ["name"; "description"; "category"; "industry"; "max_members"].
Proof.
  apply (proj2 (proj2 (proj2 (proj2 (proj2
           (newErrors_per_field Sample.blankNameForm))))) "name").
  vm_compute. eauto.
Defined.




End CreateGroupMore.

(** ** The tag editor, continued *)

Section TagsMore.
Import JS Types Types.CreateGroupRequest CreateGroupPage.

(** [trimStart] drops a blank prefix and nothing else. *)
Lemma trimStart_split (s : jsstring) :
  ∃ k, s = k ++ trimStart s ∧ Forall (λ c, is_white_space c = true) k.
Proof.
  induction s as [|c s (k & Hk & Hall)]; simpl.
  - by exists [].
  - destruct (is_white_space c) eqn:Hc.
    + exists (c :: k). split; [by rewrite Hk at 1 | by constructor].
    + by exists [].
Qed.

Lemma trimStart_head (s : jsstring) c s' :
  trimStart s = c :: s' → is_white_space c = false.
Proof.
  induction s as [|c0 s IH]; simpl; [done|].
  destruct (is_white_space c0) eqn:Hc; [done|]. by intros [= <- _].
Qed.

Lemma trimStart_fixed c (s : jsstring) :
  is_white_space c = false → trimStart (c :: s) = c :: s.
Proof. simpl. by intros ->. Qed.

Lemma trimEnd_split (s : jsstring) :
  ∃ k, s = trimEnd s ++ k ∧ Forall (λ c, is_white_space c = true) k.
Proof.
  unfold trimEnd. destruct (trimStart_split (reverse s)) as (k & Hk & Hall).
  exists (reverse k). split; [|by apply Forall_reverse].
  rewrite <-reverse_app, <-Hk. by rewrite reverse_involutive.
Qed.

(** [trimEnd] keeps a first character that is not blank. *)
Lemma trimEnd_head c (s : jsstring) :
  is_white_space c = false → ∃ s', trimEnd (c :: s) = c :: s'.
Proof.
  intros Hc. destruct (trimEnd_split (c :: s)) as (k & Hk & Hall).
  destruct (trimEnd (c :: s)) as [|c' t] eqn:Ht; simpl in Hk.
  - subst k. apply Forall_cons in Hall as [Hw _]. congruence.
  - injection Hk as -> _. eauto.
Qed.

Lemma trimEnd_last (s : jsstring) c t :
  reverse (trimEnd s) = c :: t → is_white_space c = false.
Proof.
  unfold trimEnd. rewrite reverse_involutive. apply trimStart_head.
Qed.

Lemma trim_idempotent (s : jsstring) : trim (trim s) = trim s.
Proof.
  unfold trim at 2 3. destruct (trimStart s) as [|c s'] eqn:Hs; [done|].
  apply trimStart_head in Hs.
  destruct (trimEnd_head c s' Hs) as (t & Ht).
  unfold trim. rewrite Ht, (trimStart_fixed c t Hs), <-Ht.
  unfold trimEnd at 1.
  destruct (reverse (trimEnd (c :: s'))) as [|c1 t1] eqn:Hr.
  - apply (f_equal reverse) in Hr. rewrite reverse_involutive in Hr.
    by rewrite Hr.
  - pose proof (trimEnd_last _ _ _ Hr) as Hc1.
    rewrite (trimStart_fixed c1 t1 Hc1), <-Hr. apply reverse_involutive.
Qed.

Lemma filter_all {A} (P : A → Prop) `{∀ x, Decision (P x)} (l : list A) :
  Forall P l → filter P l = l.
Proof.
  induction 1 as [|x l Hx _ IH]; [done|].
  by rewrite filter_cons_True, IH.
Qed.

Lemma handleTagEvent_trimmed st ev :
  Forall (λ t, t ≠ [] ∧ trim t = t) (tags (formData st)) →
  Forall (λ t, t ≠ [] ∧ trim t = t) (tags (formData (handleTagEvent st ev))).
Proof.
  intros Hall. destruct ev as [s | | tag]; cbn [handleTagEvent].
  - by rewrite tags_setNewTag.
  - rewrite tags_addTag. case_decide as Hc; [|done].
    destruct Hc as [Hne _]. apply Forall_app. split; [done|].
    apply Forall_singleton. split; [done | apply trim_idempotent].
  - rewrite tags_removeTag. rewrite Forall_forall in *.
    intros t Ht%list_elem_of_filter. apply Hall, Ht.
Qed.

(** X6. Every tag the editor holds is non-empty and has no white space at
    either end: this holds of the empty list the page starts with and is
    kept by typing, adding and removing, so it holds after any sequence of
    events. *)
Theorem tags_stay_trimmed (st : PageState) (evs : list TagEvent) :
  Forall (λ t, t ≠ [] ∧ trim t = t) (tags (formData st)) →
  Forall (λ t, t ≠ [] ∧ trim t = t)
    (tags (formData (runTagEvents evs st))).
Proof.
  unfold runTagEvents. revert st.
  induction evs as [|ev evs IH]; intros st Hall; simpl; [done|].
  by apply IH, handleTagEvent_trimmed.
Qed.

Lemma tags_stay_trimmed_witness :
  Forall (λ t, t ≠ [] ∧ trim t = t)
    (tags (formData
       (runTagEvents
          [TypeTag (of_ascii "  bulk steel "); AddTag;
           TypeTag (of_ascii "   "); AddTag]
          initialState))).
Proof.
  apply (tags_stay_trimmed initialState). constructor.
Defined.

(** X7. Deleting the chip of a tag that was just added gives back the tag
    list as it was before the addition. *)
Theorem removeTag_undoes_addTag (st : PageState) :
  trim (newTag st) ≠ [] →
  trim (newTag st) ∉ tags (formData st) →
  tags (formData (removeTag (trim (newTag st)) (addTag st st)))
  = tags (formData st).
Proof.
  intros Hne Hnotin.
  rewrite tags_removeTag, tags_addTag, decide_True by done.
  rewrite filter_app, filter_cons_False, filter_nil by (by intros H; apply H).
  rewrite app_nil_r. apply filter_all.
  apply Forall_forall. intros t Ht ->. done.
Qed.

Lemma removeTag_undoes_addTag_witness :
  tags (formData
    (removeTag (trim (of_ascii " copper "))
       (addTag (Sample.page Sample.goodForm " copper ")
               (Sample.page Sample.goodForm " copper "))))
  = [of_ascii "steel"].
Proof.
  apply (removeTag_undoes_addTag (Sample.page Sample.goodForm " copper "));
    vm_compute.
  - discriminate.
  - intros H. apply list_elem_of_singleton in H. discriminate.
Defined.

End TagsMore.

(** ** The provider *)

Section ProviderFacts.
Import JS Types ApiTypes Api AuthContext ApiService AuthProvider SessionFacts.

Variable stringify : User.t → string.
Variable detailOf : string → option string.

Lemma errorMessage_nonempty fallback error :
  fallback ≠ "" → errorMessage detailOf fallback error ≠ "".
Proof.
  intros Hf. unfold errorMessage.
  destruct (response error ≫= _) as [d|]; [|done].
  destruct (truthy_str d) eqn:Hd; [|done]. by apply truthy_str_true.
Qed.

Lemma requestInterceptor_token w config token :
  localStorage w !! "auth_token" = Some token → token ≠ "" →
  headers (requestInterceptor w config) !! "Authorization"
  = Some ("Bearer " +:+ token).
Proof.
  intros Hk Hne. unfold requestInterceptor, getItem. rewrite Hk.
  apply truthy_str_true in Hne. rewrite Hne. apply lookup_insert_eq.
Qed.

Lemma requestInterceptor_no_token w config :
  localStorage w !! "auth_token" = None →
  requestInterceptor w config = config.
Proof. intros Hk. unfold requestInterceptor, getItem. by rewrite Hk. Qed.

Lemma rejection_browser {A} m u p error (c : Client) st st' :
  browser (client st') = browser (call m u p (@Threw A error) c) →
  browser (client st) = browser c →
  browser_after_rejection error st st'.
Proof.
  intros Hb Hc. unfold browser_after_rejection, storage. rewrite Hb, Hc.
  simpl. split; intros Hs.
  - by apply runEffects_onRejected_not_401.
  - by apply runEffects_onRejected_401.
Qed.

Lemma storeSession_stored r st st0 :
  storage st = storage st0 →
  location_href (browser (client st)) = location_href (browser (client st0)) →
  session_stored stringify r st0 (storeSession stringify r st).
Proof.
  intros Hs Hh. unfold session_stored, storage in *.
  unfold storeSession, dispatch, onClient, setItem, onBrowser; simpl.
  split_and!; try done.
  - rewrite !lookup_insert_ne by done. by rewrite lookup_insert_eq.
  - rewrite lookup_insert_ne by done. by rewrite lookup_insert_eq.
  - by rewrite lookup_insert_eq.
  - intros k H1 H2 H3. rewrite !lookup_insert_ne by done. by rewrite Hs.
Qed.

(** X8. A resolved login (and likewise a resolved registration) returns
    normally and leaves the session of the response in place: the reducer
    state is authenticated with the response's user, not loading and
    without error; localStorage holds the token, the refresh token and the
    serialized user under 'auth_token', 'refresh_token' and 'user'; every
    other key and the location are as before. *)
Theorem login_register_store_session (r : AuthResponse.t) (st : Store)
    email password userData :
  (login stringify detailOf email password (Resolved r) st).2 = Returned
  ∧ session_stored stringify r st
      (login stringify detailOf email password (Resolved r) st).1
  ∧ (register stringify detailOf userData (Resolved r) st).2 = Returned
  ∧ session_stored stringify r st
      (register stringify detailOf userData (Resolved r) st).1.
Proof.
  split_and!; try done; by apply storeSession_stored.
Qed.

(** X9. After a resolved login or registration whose token is not empty,
    the next request of the service, whatever its method and URL, leaves
    with the header Authorization: 'Bearer ' followed by that token. *)
Theorem authorized_after_login (r : AuthResponse.t) (st : Store)
    email password userData m u :
  AuthResponse.token r ≠ "" →
  nextHeaders (login stringify detailOf email password (Resolved r) st).1 m u
    !! "Authorization" = Some ("Bearer " +:+ AuthResponse.token r)
  ∧ nextHeaders (register stringify detailOf userData (Resolved r) st).1 m u
      !! "Authorization" = Some ("Bearer " +:+ AuthResponse.token r).
Proof.
  intros Hne. unfold nextHeaders.
  split; apply requestInterceptor_token; try done;
    unfold login, register, storeSession, dispatch, onClient, setItem,
      onBrowser; simpl;
    rewrite !lookup_insert_ne by done; by rewrite lookup_insert_eq.
Qed.

(** X10. A rejected login (and likewise a rejected registration) rethrows
    the error and leaves the reducer unauthenticated, without user, not
    loading, with an error message that is never empty: the response's
    detail when it has one, else 'Login failed' ('Registration failed').
    The browser is untouched unless the response was a 401, in which case
    the interceptor has removed 'auth_token' and 'user' and set the
    location to '/login'. *)
Theorem login_register_failure (error : AxiosError) (st : Store)
    email password userData :
  let l := login stringify detailOf email password (Threw error) st in
  let g := register stringify detailOf userData (Threw error) st in
  l.2 = Thrown error
  ∧ auth l.1 = signedOut (Some (errorMessage detailOf "Login failed" error))
  ∧ errorMessage detailOf "Login failed" error ≠ ""
  ∧ browser_after_rejection error st l.1
  ∧ g.2 = Thrown error
  ∧ auth g.1
    = signedOut (Some (errorMessage detailOf "Registration failed" error))
  ∧ errorMessage detailOf "Registration failed" error ≠ ""
  ∧ browser_after_rejection error st g.1.
Proof.
  simpl. split_and!; try done; try (by apply errorMessage_nonempty).
  - by eapply rejection_browser.
  - by eapply rejection_browser.
Qed.

Lemma storage_after_logout_call (o : Outcome ()) (c : Client) k :
  k ≠ "auth_token" → k ≠ "user" →
  localStorage (browser (ApiService.logout o c)) !! k
  = localStorage (browser c) !! k.
Proof.
  intros H1 H2. unfold ApiService.logout.
  destruct o as [[] | error]; simpl.
  - by rewrite !lookup_delete_ne.
  - by apply runEffects_onRejected_other.
Qed.

(** X11. Logging out always completes, whether or not the server call
    succeeded: afterwards 'auth_token', 'refresh_token' and 'user' are gone
    from localStorage while every other key is as before, the reducer is
    unauthenticated without user or error, exactly one request (POST
    /auth/logout) was sent, the location changed only if the call was
    rejected with a 401, and the next request carries no Authorization
    header. *)
Theorem logout_clears_session (o : Outcome ()) (st : Store) m u :
  let st' := logout o st in
  storage st' !! "auth_token" = None
  ∧ storage st' !! "refresh_token" = None
  ∧ storage st' !! "user" = None
  ∧ (∀ k, k ≠ "auth_token" → k ≠ "refresh_token" → k ≠ "user" →
       storage st' !! k = storage st !! k)
  ∧ auth st' = signedOut None
  ∧ sent (client st')
    = sent (client st)
      ++ [{| sent_method := POST; sent_url := "/auth/logout";
             sent_headers := nextHeaders st POST "/auth/logout";
             sent_payload := NoPayload |}]
  ∧ location_href (browser (client st'))
    = match o with
      | Resolved _ => location_href (browser (client st))
      | Threw error =>
          if decide (status <$> response error = Some 401%Z)
          then "/login" else location_href (browser (client st))
      end
  ∧ nextHeaders st' m u !! "Authorization" = None.
Proof.
  assert (Htok : storage (logout o st) !! "auth_token" = None).
  { unfold storage, logout, dispatch, onClient, removeItem, onBrowser; simpl.
    rewrite !lookup_delete_ne by done. apply lookup_delete_eq. }
  simpl. split_and!.
  - done.
  - unfold storage, logout, dispatch, onClient, removeItem, onBrowser; simpl.
    rewrite lookup_delete_ne by done. apply lookup_delete_eq.
  - unfold storage, logout, dispatch, onClient, removeItem, onBrowser; simpl.
    apply lookup_delete_eq.
  - intros k H1 H2 H3.
    unfold storage, logout, dispatch, onClient, removeItem, onBrowser; simpl.
    rewrite !lookup_delete_ne by done.
    by apply storage_after_logout_call.
  - done.
  - by destruct o as [[] | error].
  - destruct o as [[] | error]; simpl; [done|].
    case_decide as Hd.
    + by rewrite runEffects_onRejected_401.
    + by rewrite runEffects_onRejected_not_401.
  - unfold nextHeaders. rewrite requestInterceptor_no_token; done.
Qed.

(** X12. On mount, [checkAuthStatus] always ends not loading. The session
    is authenticated exactly when both 'auth_token' and 'user' were stored
    non-empty and the call for the current user resolved. When either item
    is missing or empty no request is sent and the browser is untouched;
    when the call is rejected, 'auth_token' and 'user' are removed and the
    error is 'Session expired'. *)
Theorem checkAuthStatus_outcomes (o : Outcome User.t) (st : Store) :
  let stored :=
    truthy_item (storage st !! "auth_token")
    && truthy_item (storage st !! "user") in
  let st' := checkAuthStatus o st in
  isLoading (auth st') = false
  ∧ (isAuthenticated (auth st') = true
     ↔ stored = true ∧ ∃ u, o = Resolved u)
  ∧ (stored = false →
     client st' = client st ∧ auth st' = signedOut (Some ""))
  ∧ (stored = true →
     (∃ token, storage st !! "auth_token" = Some token
        ∧ sent (client st')
          = sent (client st)
            ++ [{| sent_method := GET; sent_url := "/users/me";
                   sent_headers :=
                     <["Authorization" := "Bearer " +:+ token]>
                       defaultHeaders;
                   sent_payload := NoPayload |}])
     ∧ (∀ u, o = Resolved u → auth st' = signedIn u)
     ∧ (∀ error, o = Threw error →
          auth st' = signedOut (Some "Session expired")
          ∧ storage st' !! "auth_token" = None
          ∧ storage st' !! "user" = None)).
Proof.
  simpl. unfold checkAuthStatus, storage, getItem.
  destruct (truthy_item (localStorage (browser (client st)) !! "auth_token")
            && truthy_item (localStorage (browser (client st)) !! "user"))
    eqn:Hst.
  - assert (Htok : ∃ token,
      localStorage (browser (client st)) !! "auth_token" = Some token
      ∧ truthy_str token = true).
    { apply andb_true_iff in Hst as [Ht _].
      destruct (localStorage (browser (client st)) !! "auth_token") as [t|];
        [eauto | done]. }
    destruct Htok as (token & Htok & Htruthy).
    split_and!.
    + by destruct o.
    + destruct o as [u | error]; simpl; split; try done; eauto.
      by intros (_ & u & ?).
    + done.
    + intros _. split_and!.
      * exists token. split; [done|].
        destruct o; simpl; unfold requestInterceptor, getItem; simpl;
          by rewrite Htok, Htruthy.
      * by intros u ->.
      * intros error ->. simpl. split_and!; [done | |].
        -- rewrite lookup_delete_ne by done. apply lookup_delete_eq.
        -- apply lookup_delete_eq.
  - split_and!; try done.
    split; [done|]. by intros [? _].
Qed.

(** X13. A rejected profile update signs the reducer out (no user, not
    authenticated, a non-empty error) but, unless the response was a 401,
    leaves localStorage as it was, so the stored token still authorizes
    later requests. A resolved update keeps the session and stores the
    serialized new user under 'user' without touching any other key. *)
Theorem updateUser_outcomes (userData : gmap string value) (st : Store) :
  (∀ error,
     let res := updateUser stringify detailOf userData (Threw error) st in
     res.2 = Thrown error
     ∧ auth res.1
       = signedOut
           (Some (errorMessage detailOf "Profile update failed" error))
     ∧ errorMessage detailOf "Profile update failed" error ≠ ""
     ∧ browser_after_rejection error st res.1)
  ∧ (∀ updatedUser,
       let res :=
         updateUser stringify detailOf userData (Resolved updatedUser) st in
       res.2 = Returned
       ∧ auth res.1 = signedIn updatedUser
       ∧ storage res.1 !! "user" = Some (stringify updatedUser)
       ∧ ∀ k, k ≠ "user" → storage res.1 !! k = storage st !! k).
Proof.
  split.
  - intros error. simpl.
    split_and!; [done | done | by apply errorMessage_nonempty |].
    by eapply rejection_browser.
  - intros updatedUser. simpl. split_and!; [done | done | |].
    + unfold storage; simpl. apply lookup_insert_eq.
    + intros k Hk. unfold storage; simpl. by rewrite lookup_insert_ne.
Qed.

(** X20. A stored session survives a reload. After a resolved login whose
    token and serialized user are not empty, a fresh provider over the same
    storage asks for the current user and, if that call resolves, is
    authenticated with the user returned; if it is rejected the session is
    dropped with 'Session expired'. After a logout, a fresh provider sends
    nothing and ends unauthenticated. *)
Theorem session_survives_reload (r : AuthResponse.t) (st : Store)
    email password :
  AuthResponse.token r ≠ "" →
  stringify (AuthResponse.user r) ≠ "" →
  let reloaded :=
    {| client :=
         client (login stringify detailOf email password (Resolved r) st).1;
       auth := AuthContext.initialState |} in
  (∀ u, auth (checkAuthStatus (Resolved u) reloaded) = signedIn u
        ∧ ∃ req, last (sent (client (checkAuthStatus (Resolved u) reloaded)))
                 = Some req
                 ∧ sent_method req = GET
                 ∧ sent_url req = "/users/me"
                 ∧ sent_headers req !! "Authorization"
                   = Some ("Bearer " +:+ AuthResponse.token r))
  ∧ (∀ error,
       auth (checkAuthStatus (Threw error) reloaded)
       = signedOut (Some "Session expired"))
  ∧ (∀ (o : Outcome ()) (o' : Outcome User.t),
       let cleared :=
         {| client := client (logout o reloaded);
            auth := AuthContext.initialState |} in
       checkAuthStatus o' cleared
       = {| client := client cleared; auth := signedOut (Some "") |}).
Proof.
  intros Htok Huser. apply truthy_str_true in Htok, Huser.
  cbv zeta.
  assert (Hstored : ∀ o : Outcome User.t,
    checkAuthStatus o
      {| client :=
           client (login stringify detailOf email password (Resolved r) st).1;
         auth := AuthContext.initialState |}
    = let st1 :=
        onClient (getCurrentUser o)
          (dispatch AUTH_START
             {| client :=
                  client (login stringify detailOf email password
                            (Resolved r) st).1;
                auth := AuthContext.initialState |}) in
      match o with
      | Resolved u => dispatch (AUTH_SUCCESS u) st1
      | Threw _ =>
          dispatch (AUTH_FAILURE "Session expired")
            (onClient (removeItem "user")
               (onClient (removeItem "auth_token") st1))
      end).
  { intros o. unfold checkAuthStatus, getItem. simpl.
    rewrite lookup_insert_eq.
    rewrite !lookup_insert_ne by done. rewrite lookup_insert_eq.
    simpl. by rewrite Htok, Huser. }
  split_and!.
  - intros u. rewrite Hstored. simpl. split; [done|].
    eexists. rewrite last_snoc. split; [done|]. split; [done|].
    split; [done|]. simpl.
    unfold requestInterceptor, getItem. simpl.
    rewrite !lookup_insert_ne by done. rewrite lookup_insert_eq, Htok.
    apply lookup_insert_eq.
  - intros error. by rewrite Hstored.
  - intros o o'. unfold checkAuthStatus, getItem. simpl.
    rewrite !lookup_delete_ne by done. by rewrite lookup_delete_eq.
Qed.

End ProviderFacts.

(** ** The login page *)

Section LoginPageFacts.
Import JS Types ApiTypes Api AuthContext ApiService AuthProvider SessionFacts.
Import LoginPage.

Variable stringify : User.t → string.
Variable detailOf : string → option string.


End LoginPageFacts.

(** ** The registration page *)

Section RegisterPageFacts.
Import JS Types ApiTypes Api AuthContext ApiService AuthProvider SessionFacts.
Import Regex RegisterPage.

Variable stringify : User.t → string.
Variable detailOf : string → option string.

(** X15. The email pattern accepts a string exactly when it contains,
    anywhere, a run of non-blank characters, an '@', another run of
    non-blank characters, a '.', and a further run of non-blank characters
    (all three runs non-empty). Nothing is required of what comes before
    or after that fragment. *)
Theorem emailPattern_test (s : jsstring) :
  test emailPattern s = true
  ↔ ∃ pre a b c post,
      s = pre ++ a ++ [64%N] ++ b ++ [46%N] ++ c ++ post
      ∧ (a ≠ [] ∧ Forall (λ x, is_white_space x = false) a)
      ∧ (b ≠ [] ∧ Forall (λ x, is_white_space x = false) b)
      ∧ (c ≠ [] ∧ Forall (λ x, is_white_space x = false) c).
Proof.
  assert (Hns : ∀ m, matches (Plus NonSpace) m
                     ↔ m ≠ [] ∧ Forall (λ x, is_white_space x = false) m).
  { intros m. unfold NonSpace. rewrite matches_plus_class.
    apply and_iff_compat_l. apply Forall_iff. intros x.
    apply negb_true_iff. }
  rewrite test_spec. unfold emailPattern. split.
  - intros (pre & m & post & -> & Hm).
    apply matches_seq_inv in Hm as (a & m1 & -> & Ha & Hm).
    apply matches_seq_inv in Hm as (at' & m2 & -> & Hat & Hm).
    apply matches_seq_inv in Hm as (b & m3 & -> & Hb & Hm).
    apply matches_seq_inv in Hm as (dot & c & -> & Hdot & Hc).
    apply matches_chr in Hat as ->. apply matches_chr in Hdot as ->.
    apply Hns in Ha, Hb, Hc.
    exists pre, a, b, c, post. split; [|done].
    by rewrite <-!(assoc_L (++)).
  - intros (pre & a & b & c & post & -> & Ha & Hb & Hc).
    apply Hns in Ha, Hb, Hc.
    exists pre, (a ++ [64%N] ++ b ++ [46%N] ++ c), post.
    split; [by rewrite <-!(assoc_L (++))|].
    repeat (apply matches_seq; [done || by apply matches_chr|]). done.
Qed.

Lemma emailPattern_test_witness :
  test emailPattern (of_ascii "to: bob@example.com, please") = true.
Proof.
  apply (proj2 (emailPattern_test (of_ascii "to: bob@example.com, please"))).
  exists (of_ascii "to: "), (of_ascii "bob"), (of_ascii "example"),
    (of_ascii "com,"), (of_ascii " please").
  split; [reflexivity|].
  split_and!; try discriminate; repeat constructor.
Defined.

End RegisterPageFacts.

(** ** The registration page: validation, submission, editing *)

Section RegisterFormFacts.
Import JS Types ApiTypes Api AuthContext ApiService AuthProvider SessionFacts.
Import Regex RegisterPage.

Variable stringify : User.t → string.
Variable detailOf : string → option string.

Lemma register_check_email_empty d e :
  check_email d e = ∅
  ↔ e = ∅ ∧ email d ≠ [] ∧ test emailPattern (email d) = true.
Proof.
  unfold check_email. destruct (truthy (email d)) eqn:Ht; simpl.
  - apply truthy_true in Ht. rewrite insert_if_empty, negb_false_iff. tauto.
  - apply truthy_false in Ht. split.
    + intros H. by apply insert_non_empty in H.
    + by intros (_ & ? & _).
Qed.

Lemma register_check_password_empty d e :
  check_password d e = ∅ ↔ e = ∅ ∧ 8 ≤ length (password d).
Proof.
  unfold check_password. destruct (truthy (password d)) eqn:Ht; simpl.
  - rewrite insert_if_empty, bool_decide_eq_false. intuition lia.
  - apply truthy_false in Ht. rewrite Ht. simpl. split.
    + intros H. by apply insert_non_empty in H.
    + intros [_ ?]. lia.
Qed.

Lemma register_check_confirmPassword_empty d e :
  check_confirmPassword d e = ∅ ↔ e = ∅ ∧ password d = confirmPassword d.
Proof.
  unfold check_confirmPassword.
  rewrite insert_if_empty, bool_decide_eq_false.
  split; intros [H1 H2]; split; try done.
  - by destruct (decide (password d = confirmPassword d)).
  - by intros ?.
Qed.

Lemma register_check_display_name_empty d e :
  check_display_name d e = ∅ ↔ e = ∅ ∧ display_name d ≠ [].
Proof.
  unfold check_display_name.
  rewrite insert_if_empty, negb_false_iff, truthy_true. tauto.
Qed.

Lemma register_validateForm_result p :
  (validateForm p).2 = bool_decide (newErrors (formData p) = ∅).
Proof.
  unfold validateForm; simpl. apply bool_decide_ext, map_size_empty_iff.
Qed.

(** X16. The registration form validates exactly when the email is not
    empty and passes the email pattern, the password has at least 8 code
    units, the confirmation equals the password, and the display name is
    not empty (a display name of blanks passes: nothing is trimmed). When
    validation fails, submitting sends nothing: the only changes are the
    error map of the page and the cleared error of the reducer. *)
Theorem register_validateForm_iff_and_gate (p : PageState) :
  ((validateForm p).2 = true
   ↔ (email (formData p) ≠ []
      ∧ test emailPattern (email (formData p)) = true)
     ∧ 8 ≤ length (password (formData p))
     ∧ password (formData p) = confirmPassword (formData p)
     ∧ display_name (formData p) ≠ [])
  ∧ (∀ o st, (validateForm p).2 = false →
       handleSubmit stringify detailOf o p st
       = (setErrors (λ _, newErrors (formData p)) p, clearError st,
          [PreventDefault])).
Proof.
  split.
  - rewrite register_validateForm_result, bool_decide_eq_true.
    unfold newErrors.
    rewrite register_check_display_name_empty,
      register_check_confirmPassword_empty, register_check_password_empty,
      register_check_email_empty.
    intuition.
  - intros o st Hf. unfold handleSubmit.
    destruct (validateForm p) as [p1 ok] eqn:Hv. simpl in Hf. subst ok.
    simpl. unfold validateForm in Hv. by injection Hv as <- _.
Qed.

(** X17. Submitting a registration form that validates sends exactly one
    request, POST /auth/register, whose data are the form fields without
    the password confirmation; the page ends with [isSubmitting] false and
    no field error. It navigates to '/dashboard' exactly when the
    registration resolved, in which case the session of the response is
    stored; otherwise the reducer holds a non-empty error. *)
Theorem register_handleSubmit_valid (o : Outcome AuthResponse.t)
    (p : PageState) (st : Store) :
  (validateForm p).2 = true →
  let res := handleSubmit stringify detailOf o p st in
  res.1.1 = setIsSubmitting false (setErrors (λ _, ∅) p)
  ∧ sent (client res.1.2)
    = sent (client st)
      ++ [{| sent_method := POST; sent_url := "/auth/register";
             sent_headers := nextHeaders st POST "/auth/register";
             sent_payload := RegisterPayload (registerData (formData p)) |}]
  ∧ match o with
    | Resolved r =>
        res.2 = [PreventDefault; Navigate "/dashboard"]
        ∧ session_stored stringify r st res.1.2
    | Threw error =>
        res.2 = [PreventDefault; ConsoleError]
        ∧ ∃ m, auth res.1.2 = signedOut (Some m) ∧ m ≠ ""
    end.
Proof.
  intros Hv. assert (He : newErrors (formData p) = ∅).
  { rewrite register_validateForm_result in Hv.
    by apply bool_decide_eq_true in Hv. }
  simpl. unfold handleSubmit.
  destruct (validateForm p) as [p1 ok] eqn:Hvf. simpl in Hv. subst ok.
  unfold validateForm in Hvf. injection Hvf as <- _. rewrite He.
  destruct o as [r | error]; simpl; split_and!; try done; eauto.
  - by apply storeSession_stored.
  - eexists. split; [done|]. by apply errorMessage_nonempty.
Qed.

(** X18. Editing a field stores the typed value in that field and leaves
    the other fields alone; afterwards the form no longer shows an error
    on the edited field, and shows one on any other field exactly if it
    did before. *)
Theorem register_handleChange (f : Field) (v : jsstring) (p : PageState) :
  get_field f (formData (handleChange f v p)) = v
  ∧ (∀ g, g ≠ f →
       get_field g (formData (handleChange f v p))
       = get_field g (formData p))
  ∧ showsError f (handleChange f v p) = false
  ∧ (∀ g, g ≠ f →
       showsError g (handleChange f v p) = showsError g p)
  ∧ isSubmitting (handleChange f v p) = isSubmitting p.
Proof.
  assert (Hinj : ∀ g, g ≠ f → field_key f ≠ field_key g).
  { intros g Hg Hk. apply Hg. by destruct f, g. }
  unfold handleChange, showsError.
  destruct (truthy_item (errors p !! field_key f)) eqn:Ht; simpl;
    split_and!; try done.
  - by destruct f.
  - intros g Hg. by destruct f, g.
  - by rewrite lookup_insert_eq.
  - intros g Hg. by rewrite lookup_insert_ne by auto.
  - by destruct f.
  - intros g Hg. by destruct f, g.
Qed.

End RegisterFormFacts.

Lemma register_handleChange_witness :
  RegisterPage.get_field RegisterPage.f_password
    (RegisterPage.formData
       (RegisterPage.handleChange RegisterPage.f_email
          (JS.of_ascii "a@b.c") RegisterPage.initialState))
  = [].
Proof.
  apply (proj1 (proj2 (register_handleChange RegisterPage.f_email
                         (JS.of_ascii "a@b.c") RegisterPage.initialState))
           RegisterPage.f_password).
  discriminate.
Defined.


Lemma register_validateForm_witness :
  RegisterPage.handleSubmit (λ _, "") (λ _, None)
    (ApiService.Threw {| Api.response := None |})
    RegisterPage.initialState (AuthProvider.initialStore Sample.loggedIn)
  = (RegisterPage.setErrors
       (λ _, RegisterPage.newErrors RegisterPage.initialFormData)
       RegisterPage.initialState,
     AuthProvider.clearError (AuthProvider.initialStore Sample.loggedIn),
     [RegisterPage.PreventDefault]).
Proof.
  apply (proj2 (register_validateForm_iff_and_gate (λ _, "") (λ _, None)
                  RegisterPage.initialState)).
  vm_compute. reflexivity.
Defined.


(** ** The dashboard *)

Section DashboardFacts.
Import JS Types ApiTypes Api ApiService DashboardPage.

Variable messageOf : AxiosError → option string.

Lemma isPending_true inv :
  isPending inv = true ↔ Invitation.status inv = pending.
Proof.
  unfold isPending. rewrite bool_decide_eq_true.
  split; [|by intros ->]. by destruct (Invitation.status inv).
Qed.

(** X19. Loading the dashboard always sends the two requests (GET /groups
    for page 1 with 5 per page, then GET /invitations), both with the
    headers the storage gives when the load starts, and ends with
    [loading] false. When both resolve, the page holds the groups of the
    response and exactly the pending invitations of the response, in
    response order; it lists at most three of them, the first three, and
    every listed invitation is pending. When either call is rejected the
    groups and invitations stay as they were and the error shown is not
    empty. *)
Theorem fetchDashboardData_outcomes (first_is_left : bool)
    (o1 : Outcome (PaginatedResponse.t Group.t))
    (o2 : Outcome (list Invitation.t)) (p : PageState) (c : Client) :
  let res := fetchDashboardData messageOf first_is_left o1 o2 p c in
  loading res.1 = false
  ∧ sent res.2
    = sent c
      ++ [{| sent_method := GET; sent_url := "/groups";
             sent_headers :=
               headers (requestInterceptor (browser c)
                          (request GET "/groups" None));
             sent_payload := PageParams 1 5 |};
          {| sent_method := GET; sent_url := "/invitations";
             sent_headers :=
               headers (requestInterceptor (browser c)
                          (request GET "/invitations" None));
             sent_payload := NoPayload |}]
  ∧ (∀ groupsResponse invitationsResponse,
       o1 = Resolved groupsResponse → o2 = Resolved invitationsResponse →
       groups res.1 = PaginatedResponse.data groupsResponse
       ∧ invitations res.1 `sublist_of` invitationsResponse
       ∧ (∀ inv, inv ∈ invitations res.1
                 ↔ inv ∈ invitationsResponse
                   ∧ Invitation.status inv = pending)
       ∧ listedInvitations res.1 `prefix_of` invitations res.1
       ∧ length (listedInvitations res.1)
         = min 3 (pendingInvitations res.1)
       ∧ Forall (λ inv, Invitation.status inv = pending)
           (listedInvitations res.1))
  ∧ ((∃ e, o1 = Threw e) ∨ (∃ e, o2 = Threw e) →
     groups res.1 = groups p
     ∧ invitations res.1 = invitations p
     ∧ ∃ m, error res.1 = Some m ∧ m ≠ "").
Proof.
  cbv zeta. split_and!.
  - unfold fetchDashboardData.
    destruct o1, o2; simpl; by repeat case_match.
  - unfold fetchDashboardData.
    unfold callBoth.
    destruct o1, o2, first_is_left; simpl; by rewrite <-(assoc_L (++)).
  - intros groupsResponse invitationsResponse -> ->.
    unfold listedInvitations, pendingInvitations; cbn -[Nat.min take].
    split_and!; [done | apply sublist_filter | | apply prefix_take
                | apply length_take |].
    + intros inv. rewrite list_elem_of_filter, isPending_true. tauto.
    + apply Forall_take, Forall_forall.
      intros inv [Hp _]%list_elem_of_filter. by apply isPending_true.
  - assert (Hm : ∀ err, ∃ m,
        Some (match messageOf err with
              | Some m => if truthy_str m then m
                          else "Failed to load dashboard data"
              | None => "Failed to load dashboard data"
              end) = Some m ∧ m ≠ "").
    { intros err. eexists. split; [done|].
      destruct (messageOf err) as [m|]; [|done].
      destruct (truthy_str m) eqn:Hm; [|done]. by apply truthy_str_true. }
    unfold fetchDashboardData.
    intros [[e ->] | [e ->]]; [destruct o2 | destruct o1];
      simpl; try destruct first_is_left;
      (split_and!; [done | done | apply Hm]).
Qed.

End DashboardFacts.

Lemma fetchDashboardData_witness :
  ∃ m, DashboardPage.error
         (DashboardPage.fetchDashboardData (λ _, None) true
            (ApiService.Threw {| Api.response := None |})
            (ApiService.Resolved [Sample.invitation])
            DashboardPage.initialState
            {| ApiService.browser := Sample.loggedIn;
               ApiService.sent := [] |}).1 = Some m
       ∧ m ≠ "".
Proof.
  apply (proj2 (proj2 (proj2
    (fetchDashboardData_outcomes (λ _, None) true
       (ApiService.Threw {| Api.response := None |})
       (ApiService.Resolved [Sample.invitation])
       DashboardPage.initialState
       {| ApiService.browser := Sample.loggedIn;
          ApiService.sent := [] |})))).
  left. eauto.
Defined.

(** ** The session, on sample values *)

Lemma authorized_after_login_witness :
  SessionFacts.nextHeaders
    (AuthProvider.login Fixtures.uidOnly Fixtures.bodyAsDetail
       (JS.of_ascii "alice@example.com") (JS.of_ascii "correct horse")
       (ApiService.Resolved Fixtures.session) Fixtures.anonymous).1
    Api.GET "/users/me" !! "Authorization" = Some "Bearer tok".
Proof.
  apply (proj1 (authorized_after_login Fixtures.uidOnly Fixtures.bodyAsDetail
                  Fixtures.session Fixtures.anonymous
                  (JS.of_ascii "alice@example.com")
                  (JS.of_ascii "correct horse")
                  (RegisterPage.registerData Fixtures.registration)
                  Api.GET "/users/me" ltac:(discriminate))).
Defined.

Lemma register_handleSubmit_valid_witness :
  (RegisterPage.handleSubmit Fixtures.uidOnly Fixtures.bodyAsDetail
     (ApiService.Resolved Fixtures.session) Fixtures.registerPage
     Fixtures.anonymous).2
  = [RegisterPage.PreventDefault; RegisterPage.Navigate "/dashboard"].
Proof.
  apply (register_handleSubmit_valid Fixtures.uidOnly Fixtures.bodyAsDetail
           (ApiService.Resolved Fixtures.session) Fixtures.registerPage
           Fixtures.anonymous).
  vm_compute. reflexivity.
Defined.

Example session_round_trip :
  SessionFacts.nextHeaders
    (AuthProvider.logout (ApiService.Resolved ())
       (AuthProvider.login Fixtures.uidOnly Fixtures.bodyAsDetail
          (JS.of_ascii "alice@example.com") (JS.of_ascii "correct horse")
          (ApiService.Resolved Fixtures.session) Fixtures.anonymous).1)
    Api.GET "/users/me"
  = Api.defaultHeaders.
Proof. vm_compute. reflexivity. Qed.

Example register_blank_display_name_passes :
  (RegisterPage.validateForm
     {| RegisterPage.formData :=
          RegisterPage.set_field RegisterPage.f_display_name
            (JS.of_ascii "   ") Fixtures.registration;
        RegisterPage.isSubmitting := false;
        RegisterPage.errors := ∅ |}).2 = true.
Proof. vm_compute. reflexivity. Qed.

Lemma logout_clears_session_witness :
  SessionFacts.storage
    (AuthProvider.logout
       (ApiService.Threw {| Api.response := None |})
       (AuthProvider.initialStore Sample.loggedIn)) !! "auth_token" = None.
Proof.
  apply (logout_clears_session
           (ApiService.Threw {| Api.response := None |})
           (AuthProvider.initialStore Sample.loggedIn) Api.GET "/groups").
Defined.

Lemma checkAuthStatus_outcomes_witness :
  AuthProvider.client
    (AuthProvider.checkAuthStatus (ApiService.Resolved Sample.alice)
       (AuthProvider.initialStore Sample.emptyToken))
  = AuthProvider.client (AuthProvider.initialStore Sample.emptyToken)
  ∧ AuthProvider.auth
      (AuthProvider.checkAuthStatus (ApiService.Resolved Sample.alice)
         (AuthProvider.initialStore Sample.emptyToken))
    = SessionFacts.signedOut (Some "").
Proof.
  apply (proj1 (proj2 (proj2
    (checkAuthStatus_outcomes (ApiService.Resolved Sample.alice)
       (AuthProvider.initialStore Sample.emptyToken))))).
  reflexivity.
Defined.

Lemma updateUser_outcomes_witness :
  SessionFacts.storage
    (AuthProvider.updateUser Fixtures.uidOnly Fixtures.bodyAsDetail ∅
       (ApiService.Resolved Sample.alice)
       (AuthProvider.initialStore Sample.loggedIn)).1 !! "auth_token"
  = Some "abc".
Proof.
  rewrite (proj2 (proj2 (proj2 (proj2
    (updateUser_outcomes Fixtures.uidOnly Fixtures.bodyAsDetail ∅
       (AuthProvider.initialStore Sample.loggedIn)) Sample.alice)))
    "auth_token"); [reflexivity | discriminate].
Defined.

Lemma session_survives_reload_witness :
  AuthContext.isAuthenticated
    (AuthProvider.auth
       (AuthProvider.checkAuthStatus (ApiService.Resolved Sample.alice)
          {| AuthProvider.client :=
               AuthProvider.client
                 (AuthProvider.login Fixtures.uidOnly Fixtures.bodyAsDetail
                    [] [] (ApiService.Resolved Fixtures.session)
                    Fixtures.anonymous).1;
             AuthProvider.auth := AuthContext.initialState |}))
  = true.
Proof.
  rewrite (proj1 (proj1 (session_survives_reload Fixtures.uidOnly
                    Fixtures.bodyAsDetail Fixtures.session Fixtures.anonymous
                    [] [] ltac:(discriminate) ltac:(discriminate))
                   Sample.alice)).
  reflexivity.
Defined.
